(** * Face-descriptor matching of the attendance backend

  A shallow embedding of the [/api/recognize] route and of its helper
  [euclideanDistance], as written in [src/server.js] and in the
  "Corrected & Optimized" variant [src/unnamed/part_000], together with
  the properties the matcher specification states about them.

  JavaScript numbers are idealised as extended real numbers with a NaN:
  rounding of binary64 arithmetic is not modelled, every other case
  distinction of the operators the code uses is ([undefined] read past the
  end of an array, NaN propagation, comparisons with NaN and Infinity). *)

From Stdlib Require Import Ascii String DecimalString.
From Stdlib Require Import Reals Lra Lia ZArith Bool Arith List.
Import ListNotations.

(** ** JavaScript values used by the route *)

Module JS.

(** A Number: a finite real, one of the two infinities, or NaN. *)
Inductive number : Type :=
| Num (r : R)
| PosInfinity
| NegInfinity
| NaN.

Definition Rltb (x y : R) : bool := if Rlt_dec x y then true else false.

(** [x + y] *)
Definition add (x y : number) : number :=
  match x, y with
  | NaN, _ | _, NaN => NaN
  | Num a, Num b => Num (a + b)
  | PosInfinity, NegInfinity | NegInfinity, PosInfinity => NaN
  | PosInfinity, _ | _, PosInfinity => PosInfinity
  | NegInfinity, _ | _, NegInfinity => NegInfinity
  end.

(** [x - y] *)
Definition sub (x y : number) : number :=
  match x, y with
  | NaN, _ | _, NaN => NaN
  | Num a, Num b => Num (a - b)
  | PosInfinity, PosInfinity | NegInfinity, NegInfinity => NaN
  | PosInfinity, _ | _, NegInfinity => PosInfinity
  | NegInfinity, _ | _, PosInfinity => NegInfinity
  end.

(** [x < y]: false as soon as one side is NaN. *)
Definition lt (x y : number) : bool :=
  match x, y with
  | NaN, _ | _, NaN => false
  | Num a, Num b => Rltb a b
  | _, NegInfinity | PosInfinity, _ => false
  | NegInfinity, _ | _, PosInfinity => true
  end.

(** [Math.pow(x, n)] at a natural exponent [n]. *)
Definition Math_pow (x : number) (n : nat) : number :=
  match n with
  | O => Num 1
  | S _ =>
      match x with
      | Num r => Num (r ^ n)
      | PosInfinity => PosInfinity
      | NegInfinity => if Nat.even n then PosInfinity else NegInfinity
      | NaN => NaN
      end
  end.

(** [Math.sqrt(x)] *)
Definition Math_sqrt (x : number) : number :=
  match x with
  | Num r => if Rltb r 0 then NaN else Num (sqrt r)
  | PosInfinity => PosInfinity
  | NegInfinity | NaN => NaN
  end.

(** [arr[i]] on an array of numbers: [None] is [undefined]. *)
Definition get (arr : list R) (i : nat) : option R := nth_error arr i.

(** ToNumber, applied by [-] to its operands: [undefined] becomes NaN. *)
Definition ToNumber (v : option R) : number :=
  match v with
  | Some r => Num r
  | None => NaN
  end.

(** [arr.reduce((acc, val, i) => f(acc, val, i), init)] *)
Fixpoint reduce_from {A B : Type} (i : nat) (f : B -> A -> nat -> B)
         (acc : B) (arr : list A) : B :=
  match arr with
  | [] => acc
  | val :: rest => reduce_from (S i) f (f acc val i) rest
  end.

Definition reduce {A B : Type} (f : B -> A -> nat -> B) (init : B)
           (arr : list A) : B :=
  reduce_from 0 f init arr.

(** The String a Number method returns.  The digits ToString gives a finite
    number of magnitude 10^21 and above (exponent notation) are those of its
    binary64 representation, which the real-number idealisation does not
    determine: such a result is kept as [ToStringOf]. *)
Inductive numeric_string : Type :=
| Text (s : string)
| ToStringOf (r : R).

(** Decimal digits of a non-negative integer, ["0"] for zero. *)
Definition digits (n : Z) : string :=
  NilZero.string_of_uint (N.to_uint (Z.to_N n)).

Fixpoint zeros (k : nat) : string :=
  match k with
  | O => EmptyString
  | S k' => String "0"%char (zeros k')
  end.

(** Steps 11.b and 11.c of Number.prototype.toFixed: the digits of [n],
    padded with zeros to [f + 1] characters, with a point before the last
    [f] of them. *)
Definition placePoint (n : Z) (f : nat) : string :=
  let m := digits n in
  match f with
  | O => m
  | S _ =>
      let m := if (String.length m <=? f)%nat
               then (zeros (f + 1 - String.length m) ++ m)%string
               else m in
      let k := String.length m in
      (substring 0 (k - f) m ++ "." ++ substring (k - f) f m)%string
  end.

(** [x.toFixed(f)] for [0 <= f <= 100]: the integer [n] with [n / 10^f]
    closest to [|x|], the larger one of two, written with [f] digits after
    the point. *)
Definition toFixed (x : number) (f : nat) : numeric_string :=
  match x with
  | NaN => Text "NaN"
  | PosInfinity => Text "Infinity"
  | NegInfinity => Text "-Infinity"
  | Num r =>
      let s := if Rltb r 0 then "-"%string else EmptyString in
      let x := if Rltb r 0 then (- r)%R else r in
      if Rltb x (10 ^ 21) then
        let n := Int_part (x * 10 ^ f + 1 / 2) in
        Text (s ++ placePoint n f)%string
      else ToStringOf r
  end.

End JS.

Import JS.

(** ** Data shared by both files *)

(** A face descriptor: an array of numbers ([[Number]] in the schema). *)
Definition Descriptor : Type := list R.

(** The fields of a [Student] document that the route reads. *)
Record Student : Type := mkStudent {
  _id : string;
  name : string;
  rollNo : string;
  email : string;
  faceDescriptors : list Descriptor
}.

(** The [student] object placed in a match. *)
Record StudentInfo : Type := mkInfo {
  info_id : string;
  info_name : string;
  info_rollNo : string;
  info_email : string
}.

Definition infoOf (s : Student) : StudentInfo :=
  {| info_id := _id s; info_name := name s;
     info_rollNo := rollNo s; info_email := email s |}.

(** [const threshold = 0.6] *)
Definition threshold : number := Num 0.6.

(** [arr.length === 0] *)
Definition isEmpty {A : Type} (arr : list A) : bool :=
  match arr with
  | [] => true
  | _ :: _ => false
  end.

(** The condition [{ $ne: [] }] of MongoDB on a field that holds an array.
  An equality condition on an array field is met by the array itself and by
  each of its elements, and [$ne] is its negation: the field is not the
  empty array, and none of its elements is the empty array either. *)
Definition ne_empty {A : Type} (field : list (list A)) : bool :=
  negb (isEmpty field) && forallb (fun element => negb (isEmpty element)) field.

(** [{ faceDescriptors: { $exists: true, $ne: [] } }] on a document: the
  field exists in every document of the schema (an array path defaults to
  the empty array). *)
Definition hasDescriptors (s : Student) : bool :=
  ne_empty (faceDescriptors s).

(** [Student.find({ faceDescriptors: { $exists: true, $ne: [] } })] over the
  collection, given as the list of its documents in the order the query
  returns them. *)
Definition findWithDescriptors (collection : list Student) : list Student :=
  filter hasDescriptors collection.

(** The request body: [detectedDescriptors] may be missing. *)
Record Body : Type := mkBody {
  detectedDescriptors : option (list Descriptor)
}.

(** What the [try] block can throw on a body of this shape: iterating a
  missing [detectedDescriptors]. *)
Inductive exn : Type := TypeError.

(** The answer of the route: [res.json({ matches })] or
  [res.status(500).json({ error })]. *)
Inductive response (M : Type) : Type :=
| Json200 (matches : list M)
| Json500 (error : exn).

Arguments Json200 {M} matches.
Arguments Json500 {M} error.

(** ** src/server.js *)

Module Server.

(** [function euclideanDistance(arr1, arr2)]: the [for] loop over the
    indices of [arr1]. *)
Definition euclideanDistance (arr1 arr2 : Descriptor) : number :=
  let sum :=
    fold_left
      (fun sum i =>
         add sum (Math_pow (sub (ToNumber (get arr1 i)) (ToNumber (get arr2 i))) 2))
      (seq 0 (length arr1)) (Num 0) in
  Math_sqrt sum.

(** An element of [matches]. *)
Record Match : Type := mkMatch {
  student : StudentInfo;
  confidence : number;
  distance : number
}.

(** The two locals of the outer loop body. *)
Record Best : Type := mkBest {
  bestMatch : option Match;
  bestDistance : number
}.

(** [let bestMatch = null; let bestDistance = Infinity;] *)
Definition initial : Best :=
  {| bestMatch := None; bestDistance := PosInfinity |}.

(** Body of the innermost loop. *)
Definition visit (descriptor : Descriptor) (s : Student) (best : Best)
           (storedDescriptor : Descriptor) : Best :=
  let distance := euclideanDistance descriptor storedDescriptor in
  if lt distance threshold && lt distance (bestDistance best) then
    {| bestDistance := distance;
       bestMatch := Some {| student := infoOf s;
                            confidence := sub (Num 1) distance;
                            distance := distance |} |}
  else best.

(** [for (const storedDescriptor of student.faceDescriptors)] *)
Definition scanStudent (descriptor : Descriptor) (best : Best) (s : Student)
  : Best :=
  fold_left (visit descriptor s) (faceDescriptors s) best.

(** [for (const student of students)] *)
Definition scan (students : list Student) (descriptor : Descriptor) : Best :=
  fold_left (scanStudent descriptor) students initial.

(** Body of [for (const descriptor of detectedDescriptors)]:
    [if (bestMatch) matches.push(bestMatch)]. *)
Definition step (students : list Student) (matches : list Match)
           (descriptor : Descriptor) : list Match :=
  match bestMatch (scan students descriptor) with
  | Some m => matches ++ [m]
  | None => matches
  end.

Definition matchAll (students : list Student) (probes : list Descriptor)
  : list Match :=
  fold_left (step students) probes [].

(** [app.post('/api/recognize', ...)] once the token has been accepted. *)
Definition recognize (collection : list Student) (body : Body)
  : response Match :=
  match detectedDescriptors body with
  | None => Json500 TypeError
  | Some probes => Json200 (matchAll (findWithDescriptors collection) probes)
  end.

End Server.

(** ** src/unnamed/part_000 (the "Corrected & Optimized" server) *)

Module Optimized.

(** [function euclideanDistance(a, b)]: [a.reduce] with the index. *)
Definition euclideanDistance (a b : Descriptor) : number :=
  Math_sqrt
    (reduce
       (fun sum val i => add sum (Math_pow (sub (Num val) (ToNumber (get b i))) 2))
       (Num 0) a).

(** An element of [matches]: both figures are strings here. *)
Record Match : Type := mkMatch {
  student : StudentInfo;
  confidence : numeric_string;
  distance : numeric_string
}.

Record Best : Type := mkBest {
  bestMatch : option Match;
  bestDistance : number
}.

Definition initial : Best :=
  {| bestMatch := None; bestDistance := PosInfinity |}.

(** Callback of [student.faceDescriptors.forEach]. *)
Definition visit (descriptor : Descriptor) (s : Student) (best : Best)
           (storedDescriptor : Descriptor) : Best :=
  let distance := euclideanDistance descriptor storedDescriptor in
  if lt distance threshold && lt distance (bestDistance best) then
    {| bestDistance := distance;
       bestMatch := Some {| student := infoOf s;
                            confidence := toFixed (sub (Num 1) distance) 2;
                            distance := toFixed distance 3 |} |}
  else best.

(** Callback of [students.forEach]. *)
Definition scanStudent (descriptor : Descriptor) (best : Best) (s : Student)
  : Best :=
  fold_left (visit descriptor s) (faceDescriptors s) best.

Definition scan (students : list Student) (descriptor : Descriptor) : Best :=
  fold_left (scanStudent descriptor) students initial.

(** Callback of [detectedDescriptors.forEach]:
    [if (bestMatch) matches.push(bestMatch)]. *)
Definition step (students : list Student) (matches : list Match)
           (descriptor : Descriptor) : list Match :=
  match bestMatch (scan students descriptor) with
  | Some m => matches ++ [m]
  | None => matches
  end.

Definition matchAll (students : list Student) (probes : list Descriptor)
  : list Match :=
  fold_left (step students) probes [].

Definition recognize (collection : list Student) (body : Body)
  : response Match :=
  match detectedDescriptors body with
  | None => Json500 TypeError
  | Some probes => Json200 (matchAll (findWithDescriptors collection) probes)
  end.

End Optimized.

(** ** Notions of the specification *)

Module Spec.

(** The metric as the specification writes it: sqrt(Σ (a_i − b_i)^2) over
    the paired components. *)
Definition sumSquares (a b : Descriptor) : R :=
  fold_right Rplus 0%R (map (fun p => (fst p - snd p) ^ 2)%R (combine a b)).

Definition euclid (a b : Descriptor) : R := sqrt (sumSquares a b).

(** The (identity, descriptor) pairs of a gallery in iteration order:
    identities as given, then the descriptors of each. *)
Definition pairs (students : list Student) : list (Student * Descriptor) :=
  flat_map (fun s => map (pair s) (faceDescriptors s)) students.

(** The minimal distance from [probe] over all pairs of the gallery;
    Infinity when no pair has a comparable distance. *)
Definition minDistance (students : list Student) (probe : Descriptor)
  : number :=
  fold_left
    (fun best p =>
       let d := Server.euclideanDistance probe (snd p) in
       if lt d best then d else best)
    (pairs students) PosInfinity.

(** [(s, d)] is the first pair, in iteration order, whose distance [d] from
    [probe] no pair of the gallery undercuts. *)
Definition firstMinimal (students : list Student) (probe : Descriptor)
           (s : Student) (d : number) : Prop :=
  exists before stored after,
    pairs students = before ++ (s, stored) :: after /\
    d = Server.euclideanDistance probe stored /\
    (forall p, In p (pairs students) ->
               lt (Server.euclideanDistance probe (snd p)) d = false) /\
    (forall p, In p before ->
               Server.euclideanDistance probe (snd p) <> d).

(** The entries one probe contributes to [matches]. *)
Definition entries {M : Type} (bestMatch : option M) : list M :=
  match bestMatch with
  | Some m => [m]
  | None => []
  end.

End Spec.

(** ** Auxiliary notions of the proofs *)

Import Spec.

(** The running sum of both distance loops, by recursion on the first
    array: [hd_error b] is the element of the second array at the current
    index. *)
Fixpoint accumulate (sum : number) (a b : list R) : number :=
  match a with
  | [] => sum
  | x :: a' =>
      accumulate
        (add sum (Math_pow (sub (Num x) (ToNumber (hd_error b))) 2))
        a' (tl b)
  end.

(** One turn of the [for] loop of [Server.euclideanDistance]. *)
Definition term (a b : list R) (sum : number) (i : nat) : number :=
  add sum (Math_pow (sub (ToNumber (get a i)) (ToNumber (get b i))) 2).

(** The innermost loop body of server.js on a pair of the gallery. *)
Definition visitPair (probe : Descriptor) (best : Server.Best)
           (p : Student * Descriptor) : Server.Best :=
  Server.visit probe (fst p) best (snd p).

(** The locals of server.js after [stored], a descriptor of [s], replaced
    the current best. *)
Definition won (probe : Descriptor) (s : Student) (stored : Descriptor)
  : Server.Best :=
  let d := Server.euclideanDistance probe stored in
  {| Server.bestMatch :=
       Some {| Server.student := infoOf s;
               Server.confidence := sub (Num 1) d;
               Server.distance := d |};
     Server.bestDistance := d |}.

(** Loop invariant of the scan: after the pairs [seen], either nothing was
    below the threshold and the locals are the initial ones, or the locals
    hold the first pair of [seen] that no pair of [seen] undercuts. *)
Inductive Tracked (probe : Descriptor) (seen : list (Student * Descriptor))
  : Server.Best -> Prop :=
| Tracked_none :
    (forall p, In p seen ->
               lt (Server.euclideanDistance probe (snd p)) threshold = false) ->
    Tracked probe seen Server.initial
| Tracked_some before s stored after :
    seen = before ++ (s, stored) :: after ->
    lt (Server.euclideanDistance probe stored) threshold = true ->
    (forall p, In p seen ->
               lt (Server.euclideanDistance probe (snd p))
                  (Server.euclideanDistance probe stored) = false) ->
    (forall p, In p before ->
               Server.euclideanDistance probe (snd p) <>
               Server.euclideanDistance probe stored) ->
    Tracked probe seen (won probe s stored).

(** One step of [minDistance]. *)
Definition closer (probe : Descriptor) (best : number)
           (p : Student * Descriptor) : number :=
  let d := Server.euclideanDistance probe (snd p) in
  if lt d best then d else best.

(** Invariant of [minDistance] over the pairs [seen]. *)
Record Minimal (probe : Descriptor) (seen : list (Student * Descriptor))
       (best : number) : Prop := {
  minimal_number : best <> NaN;
  minimal_below :
    forall p, In p seen ->
              lt (Server.euclideanDistance probe (snd p)) best = false;
  minimal_attained :
    best = PosInfinity \/
    exists p, In p seen /\ best = Server.euclideanDistance probe (snd p)
}.

(** What the optimized variant makes of a match of server.js. *)
Definition format (m : Server.Match) : Optimized.Match :=
  {| Optimized.student := Server.student m;
     Optimized.confidence := toFixed (Server.confidence m) 2;
     Optimized.distance := toFixed (Server.distance m) 3 |}.

Definition formatBest (best : Server.Best) : Optimized.Best :=
  {| Optimized.bestMatch := option_map format (Server.bestMatch best);
     Optimized.bestDistance := Server.bestDistance best |}.

(** ** Sample documents *)

Definition asha : Student :=
  {| _id := "S1"; name := "Asha"; rollNo := "01"; email := "asha@example.org";
     faceDescriptors := [[0; 0]%R] |}.

Definition zoya : Student :=
  {| _id := "S2"; name := "Zoya"; rollNo := "02"; email := "zoya@example.org";
     faceDescriptors := [[10; 10]%R] |}.

Definition ravi : Student :=
  {| _id := "S3"; name := "Ravi"; rollNo := "03"; email := "ravi@example.org";
     faceDescriptors := [[0; 0.3]%R] |}.

(** Enrolled, no reference sample yet. *)
Definition mina : Student :=
  {| _id := "S4"; name := "Mina"; rollNo := "04"; email := "mina@example.org";
     faceDescriptors := [] |}.

(** A reference photo of hers was posted with an empty descriptor. *)
Definition tara : Student :=
  {| _id := "S6"; name := "Tara"; rollNo := "06"; email := "tara@example.org";
     faceDescriptors := [[0; 0]%R; []] |}.

Definition body (probes : list Descriptor) : Body :=
  {| detectedDescriptors := Some probes |}.

Definition hit (s : Student) (confidence distance : R) : Server.Match :=
  {| Server.student := infoOf s;
     Server.confidence := Num confidence;
     Server.distance := Num distance |}.

Definition hitText (s : Student) (confidence distance : string)
  : Optimized.Match :=
  {| Optimized.student := infoOf s;
     Optimized.confidence := Text confidence;
     Optimized.distance := Text distance |}.

(** ** The rest of the application *)

(** *** Strings *)

Module JSString.

(** [s.split(sep)] for a separator of one character: the pieces between
    the occurrences of [sep], in order. *)
Fixpoint split (sep : ascii) (s : string) : list string :=
  match s with
  | EmptyString => [EmptyString]
  | String c rest =>
      if Ascii.eqb c sep then EmptyString :: split sep rest
      else match split sep rest with
           | piece :: pieces => String c piece :: pieces
           | [] => [String c EmptyString]
           end
  end.

(** Truthiness of a value that is a string or [undefined]: the empty string
    and [undefined] are falsy. *)
Definition truthy (v : option string) : bool :=
  match v with
  | Some (String _ _) => true
  | Some EmptyString | None => false
  end.

(** A string placed in a template literal: [undefined] reads "undefined". *)
Definition show (v : option string) : string :=
  match v with
  | Some s => s
  | None => "undefined"
  end.

(** Occurrences of a character in a string. *)
Fixpoint count (c : ascii) (s : string) : nat :=
  match s with
  | EmptyString => 0
  | String c' rest => (if Ascii.eqb c' c then 1 else 0) + count c rest
  end.

(** The line feed written \n in the source. *)
Definition newline : ascii := ascii_of_nat 10.

End JSString.

(** *** Answers *)

Module Http.

(** The error [save()] throws when a document fails the schema. *)
Inductive failure : Type := ValidationError.

(** The answer of a route: [res.status(status).json(value)], an error
    object with its message, or status 500 with the message of the error
    that was thrown. *)
Inductive answer (A : Type) : Type :=
| Sent (status : nat) (value : A)
| Refused (status : nat) (error : string)
| Failed (e : failure).

Arguments Sent {A} status value.
Arguments Refused {A} status error.
Arguments Failed {A} e.

(** The [required] validator of a String path: present and not empty. *)
Definition required (s : string) : bool :=
  match s with
  | EmptyString => false
  | String _ _ => true
  end.

End Http.

(** *** The middleware [authenticateToken] *)

Module Auth.

(** What the middleware does with a request: answer it itself, or call
    [next()] with [req.user] set. *)
Inductive outcome (U : Type) : Type :=
| Answered (status : nat) (error : string)
| Next (user : U).

Arguments Answered {U} status error.
Arguments Next {U} user.

(** [authHeader && authHeader.split(' ')[1]] *)
Definition tokenOf (authHeader : option string) : option string :=
  match authHeader with
  | None => None
  | Some EmptyString => Some EmptyString
  | Some h => nth_error (JSString.split " " h) 1
  end.

(** The body of the middleware.  [verify token secret] stands for
    [jwt.verify(token, secret, callback)]: [None] when the callback receives
    an error, the decoded payload otherwise. *)
Definition authenticate {U : Type} (verify : string -> string -> option U)
           (secret : string) (authHeader : option string) : outcome U :=
  match tokenOf authHeader with
  | None | Some EmptyString => Answered 401 "Access denied"
  | Some token =>
      match verify token secret with
      | None => Answered 403 "Invalid token"
      | Some user => Next user
      end
  end.

(** The answer of a route registered behind the middleware: the handler runs
    only when the middleware called [next()]. *)
Inductive reply (A : Type) : Type :=
| Stopped (status : nat) (error : string)
| Handled (answer : A).

Arguments Stopped {A} status error.
Arguments Handled {A} answer.

Definition behind {U A : Type} (o : outcome U) (handler : A) : reply A :=
  match o with
  | Answered status error => Stopped status error
  | Next _ => Handled handler
  end.

End Auth.

(** *** The authentication routes *)

Module Users.

Import Http.

(** A [User] document; [password] holds the hash. *)
Record User : Type := mkUser {
  user_id : string;
  username : string;
  email : string;
  password : string;
  role : string
}.

(** [const { username, email, password, role } = req.body] *)
Record Registration : Type := mkRegistration {
  reg_username : string;
  reg_email : string;
  reg_password : string;
  reg_role : option string
}.

(** [role || 'teacher'] *)
Definition roleOr (role : option string) : string :=
  match role with
  | Some (String c s) => String c s
  | Some EmptyString | None => "teacher"
  end.

(** [enum: ['admin', 'teacher', 'student']] *)
Definition allowedRole (role : string) : bool :=
  (role =? "admin")%string || (role =? "teacher")%string
  || (role =? "student")%string.

(** [app.post('/api/auth/register', ...)]: [hashedPassword] is what
    [bcrypt.hash(password, 10)] returned, [newId] the id of the new
    document; the value sent is the [userId]. *)
Definition register (hashedPassword newId : string) (db : list User)
           (b : Registration) : list User * answer string :=
  match find (fun u => (email u =? reg_email b)%string
                       || (username u =? reg_username b)%string) db with
  | Some _ => (db, Refused 400 "User already exists")
  | None =>
      let user := {| user_id := newId;
                     username := reg_username b;
                     email := reg_email b;
                     password := hashedPassword;
                     role := roleOr (reg_role b) |} in
      if required (username user) && required (email user)
         && required (password user) && allowedRole (role user)
      then (db ++ [user], Sent 201 newId)
      else (db, Failed ValidationError)
  end.

(** The payload of the token: [{ userId, username, role }]. *)
Record Payload : Type := mkPayload {
  payload_userId : string;
  payload_username : string;
  payload_role : string
}.

(** [const { email, password } = req.body] *)
Record Credentials : Type := mkCredentials {
  cred_email : string;
  cred_password : string
}.

(** What a successful login sends: the token and the [user] object. *)
Record Session : Type := mkSession {
  token : string;
  session_id : string;
  session_username : string;
  session_email : string;
  session_role : string
}.

(** [app.post('/api/auth/login', ...)]: [compare] is [bcrypt.compare],
    [sign payload secret] is [jwt.sign(payload, secret, { expiresIn:
    '24h' })] at the time of the call. *)
Definition login (compare : string -> string -> bool)
           (sign : Payload -> string -> string) (secret : string)
           (db : list User) (b : Credentials) : answer Session :=
  match find (fun u => (email u =? cred_email b)%string) db with
  | None => Refused 400 "Invalid credentials"
  | Some user =>
      if compare (cred_password b) (password user)
      then Sent 200 {| token := sign {| payload_userId := user_id user;
                                        payload_username := username user;
                                        payload_role := role user |} secret;
                       session_id := user_id user;
                       session_username := username user;
                       session_email := email user;
                       session_role := role user |}
      else Refused 400 "Invalid credentials"
  end.

End Users.

(** server.js: the secret is the literal ['your-secret-key']. *)
Module ServerApp.

Definition authenticateToken {U : Type} (verify : string -> string -> option U)
           (authHeader : option string) : Auth.outcome U :=
  Auth.authenticate verify "your-secret-key" authHeader.

(** [app.post('/api/recognize', authenticateToken, ...)] *)
Definition recognizeRoute {U : Type} (verify : string -> string -> option U)
           (authHeader : option string) (collection : list Student)
           (body : Body) : Auth.reply (response Server.Match) :=
  Auth.behind (authenticateToken verify authHeader)
              (Server.recognize collection body).

Definition login (compare : string -> string -> bool)
           (sign : Users.Payload -> string -> string)
           (db : list Users.User) (b : Users.Credentials)
  : Http.answer Users.Session :=
  Users.login compare sign "your-secret-key" db b.

End ServerApp.

(** part_000: [process.env.JWT_SECRET || 'your-secret-key']. *)
Module OptimizedApp.

Definition secret (JWT_SECRET : option string) : string :=
  match JWT_SECRET with
  | Some (String c s) => String c s
  | Some EmptyString | None => "your-secret-key"
  end.

Definition authenticateToken {U : Type} (verify : string -> string -> option U)
           (JWT_SECRET : option string) (authHeader : option string)
  : Auth.outcome U :=
  Auth.authenticate verify (secret JWT_SECRET) authHeader.

Definition recognizeRoute {U : Type} (verify : string -> string -> option U)
           (JWT_SECRET : option string) (authHeader : option string)
           (collection : list Student) (body : Body)
  : Auth.reply (response Optimized.Match) :=
  Auth.behind (authenticateToken verify JWT_SECRET authHeader)
              (Optimized.recognize collection body).

Definition login (compare : string -> string -> bool)
           (sign : Users.Payload -> string -> string)
           (JWT_SECRET : option string)
           (db : list Users.User) (b : Users.Credentials)
  : Http.answer Users.Session :=
  Users.login compare sign (secret JWT_SECRET) db b.

End OptimizedApp.

(** *** The student routes (the same text in both files) *)

Module Students.

Import Http.

(** An element of [referencePhotos]. *)
Record Photo : Type := mkPhoto {
  data : option string;
  timestamp : N;
  hasDescriptor : bool
}.

(** A [Student] document: the fields the matcher reads, and the rest.
    Dates are numbers of milliseconds. *)
Record Doc : Type := mkDoc {
  fields : Student;
  referencePhotos : list Photo;
  createdAt : N;
  updatedAt : N
}.

(** What the matcher is given of a collection of documents. *)
Definition gallery (db : list Doc) : list Student := map fields db.

(** [Student.findById(id)], for a well-formed id. *)
Definition findById (id : string) (db : list Doc) : option Doc :=
  find (fun d => (_id (fields d) =? id)%string) db.

(** [student.save()] of a document that was found by its id: it is written
    back in its place. *)
Fixpoint save (student : Doc) (db : list Doc) : list Doc :=
  match db with
  | [] => []
  | d :: rest =>
      if (_id (fields d) =? _id (fields student))%string
      then student :: rest
      else d :: save student rest
  end.

(** [const { name, rollNo, email } = req.body] *)
Record NewStudent : Type := mkNewStudent {
  new_name : string;
  new_rollNo : string;
  new_email : string
}.

(** [app.post('/api/students', ...)]: [newId] is the id the driver gives the
    new document, [created] and [updated] the two readings of [Date.now] for
    its dates. *)
Definition createStudent (newId : string) (created updated : N)
           (db : list Doc) (b : NewStudent) : list Doc * answer Doc :=
  match find (fun d => (rollNo (fields d) =? new_rollNo b)%string
                       || (email (fields d) =? new_email b)%string) db with
  | Some _ => (db, Refused 400 "Student already exists")
  | None =>
      let student :=
        {| fields := {| _id := newId; name := new_name b;
                        rollNo := new_rollNo b; email := new_email b;
                        faceDescriptors := [] |};
           referencePhotos := [];
           createdAt := created;
           updatedAt := updated |} in
      if required (new_name b) && required (new_rollNo b)
         && required (new_email b)
      then (db ++ [student], Sent 201 student)
      else (db, Failed ValidationError)
  end.

(** [const { imageData, faceDescriptor } = req.body]: an array is truthy,
    also when it is empty. *)
Record NewPhoto : Type := mkNewPhoto {
  imageData : option string;
  faceDescriptor : option Descriptor
}.

Definition provided (faceDescriptor : option Descriptor) : bool :=
  match faceDescriptor with
  | Some _ => true
  | None => false
  end.

(** [app.post('/api/students/:id/photos', ...)]: [taken] and [updated] are
    the two readings of [new Date()]. *)
Definition addPhoto (taken updated : N) (db : list Doc) (id : string)
           (b : NewPhoto) : list Doc * answer Doc :=
  match findById id db with
  | None => (db, Refused 404 "Student not found")
  | Some student =>
      let photos :=
        referencePhotos student ++
        [{| data := imageData b; timestamp := taken;
            hasDescriptor := provided (faceDescriptor b) |}] in
      let descriptors :=
        match faceDescriptor b with
        | Some d => faceDescriptors (fields student) ++ [d]
        | None => faceDescriptors (fields student)
        end in
      let student' :=
        {| fields := {| _id := _id (fields student);
                        name := name (fields student);
                        rollNo := rollNo (fields student);
                        email := email (fields student);
                        faceDescriptors := descriptors |};
           referencePhotos := photos;
           createdAt := createdAt student;
           updatedAt := updated |} in
      (save student' db, Sent 200 student')
  end.

(** [Student.findByIdAndDelete(id)]: the first document with that id goes. *)
Fixpoint delete (id : string) (db : list Doc) : list Doc :=
  match db with
  | [] => []
  | d :: rest =>
      if (_id (fields d) =? id)%string then rest else d :: delete id rest
  end.

(** [app.delete('/api/students/:id', ...)]: the value sent is the
    [message]. *)
Definition deleteStudent (db : list Doc) (id : string)
  : list Doc * answer string :=
  match findById id db with
  | None => (db, Refused 404 "Student not found")
  | Some _ => (delete id db, Sent 200 "Student deleted successfully"%string)
  end.

(** A document as the routes above leave it: one descriptor for each photo
    flagged [hasDescriptor]. *)
Definition consistent (d : Doc) : Prop :=
  length (filter hasDescriptor (referencePhotos d)) =
  length (faceDescriptors (fields d)).

End Students.

(** *** The attendance reports of server.js *)

Module Reports.

(** The fields of an [Attendance] document that the two report routes read;
    a path that was never set reads [undefined]. *)
Record Attendance : Type := mkAttendance {
  studentId : option string;
  studentName : option string;
  rollNo : option string;
  date : option string;
  time : option string;
  confidence : option R;
  method : option string;
  status : option string
}.

(** [record.confidence * 100] *)
Definition times100 (confidence : option R) : number :=
  match confidence with
  | Some c => Num (c * 100)
  | None => NaN
  end.

(** [(record.confidence * 100).toFixed(1)] as the string it is.
    [NumberToString] gives the digits of a number of magnitude 10^21 and
    above, which [toFixed] leaves to ToString. *)
Definition percent (NumberToString : R -> string) (confidence : option R)
  : string :=
  match toFixed (times100 confidence) 1 with
  | Text s => s
  | ToStringOf r => NumberToString r
  end.

(** The template literal of one record. *)
Definition row (NumberToString : R -> string) (record : Attendance) : string :=
  (JSString.show (date record) ++ "," ++
   JSString.show (time record) ++ "," ++
   JSString.show (studentName record) ++ "," ++
   JSString.show (rollNo record) ++ "," ++
   percent NumberToString (confidence record) ++ "%," ++
   JSString.show (method record) ++ "," ++
   JSString.show (status record))%string.

Definition csvHeader : string :=
  ("Date,Time,Student Name,Roll No,Confidence,Method,Status" ++
   String JSString.newline EmptyString)%string.

(** [csvHeader + attendance.map(...).join('\n')], what [res.send] is given. *)
Definition exportCsv (NumberToString : R -> string)
           (attendance : list Attendance) : string :=
  (csvHeader ++
   String.concat (String JSString.newline EmptyString)
                 (map (row NumberToString) attendance))%string.

(** [if (startDate && endDate) query.date = { $gte: startDate, $lte:
    endDate }]: the range the query asks for, if any. *)
Definition exportQuery (startDate endDate : option string)
  : option (string * string) :=
  match startDate, endDate with
  | Some (String c s), Some (String c' e) => Some (String c s, String c' e)
  | _, _ => None
  end.

(** Whether a document matches the query: strings compare byte by byte, and a
    document without a date is in no range. *)
Definition selected (query : option (string * string)) (record : Attendance)
  : bool :=
  match query with
  | None => true
  | Some (startDate, endDate) =>
      match date record with
      | Some d => (startDate <=? d)%string && (d <=? endDate)%string
      | None => false
      end
  end.

(** [Attendance.find(query)] of the export route; the order, by descending
    timestamp, is left to the database. *)
Definition exportFind (startDate endDate : option string)
           (collection : list Attendance) : list Attendance :=
  filter (selected (exportQuery startDate endDate)) collection.








End Reports.

(** *** More sample documents *)

Definition ashaDoc : Students.Doc :=
  {| Students.fields := asha;
     Students.referencePhotos :=
       [{| Students.data := Some "data:image/png;base64,AAAA"%string;
           Students.timestamp := 1700000000000%N;
           Students.hasDescriptor := true |}];
     Students.createdAt := 1700000000000%N;
     Students.updatedAt := 1700000000000%N |}.

Definition minaDoc : Students.Doc :=
  {| Students.fields := mina;
     Students.referencePhotos := [];
     Students.createdAt := 1700000000000%N;
     Students.updatedAt := 1700000000000%N |}.

Definition omar : Users.User :=
  {| Users.user_id := "U1"; Users.username := "omar";
     Users.email := "omar@example.org";
     Users.password := "$2a$10$hash"; Users.role := "teacher" |}.

Definition ashaPresent : Reports.Attendance :=
  {| Reports.studentId := Some "S1"%string;
     Reports.studentName := Some "Asha"%string;
     Reports.rollNo := Some "01"%string;
     Reports.date := Some "2024-03-05"%string;
     Reports.time := Some "9:02:11 AM"%string;
     Reports.confidence := Some 0.8586%R;
     Reports.method := Some "face"%string;
     Reports.status := Some "Present"%string |}.

(** * Properties *)

(** ** Numbers *)

Lemma Rltb_true (x y : R) : Rltb x y = true <-> (x < y)%R.
Proof.
  unfold Rltb. destruct (Rlt_dec x y); split; intros; try easy.
Qed.

Lemma Rltb_false (x y : R) : Rltb x y = false <-> (y <= x)%R.
Proof.
  unfold Rltb. destruct (Rlt_dec x y); split; intros; try easy; lra.
Qed.

Lemma lt_irrefl (x : number) : lt x x = false.
Proof.
  destruct x; simpl; trivial. apply Rltb_false. lra.
Qed.

Lemma lt_trans (x y z : number) :
  lt x y = true -> lt y z = true -> lt x z = true.
Proof.
  destruct x, y, z; simpl; trivial; try discriminate.
  rewrite !Rltb_true. lra.
Qed.

Lemma lt_threshold_Infinity (x : number) :
  lt x threshold = true -> lt x PosInfinity = true.
Proof. destruct x; simpl; trivial. Qed.

Lemma lt_Num_l (x y : number) :
  lt x y = true -> x <> NaN /\ y <> NaN.
Proof. destruct x, y; simpl; intros; split; congruence. Qed.

Lemma add_NaN_r (x : number) : add x NaN = NaN.
Proof. destruct x; reflexivity. Qed.

(** ** The distance *)

Lemma fold_left_seq_shift (x y : R) (a b : list R) (n i : nat) (sum : number) :
  fold_left (term (x :: a) (y :: b)) (seq (S i) n) sum =
  fold_left (term a b) (seq i n) sum.
Proof.
  revert i sum. induction n as [|n IH]; intros i sum; simpl.
  - reflexivity.
  - apply IH.
Qed.

Lemma fold_left_seq_shift_nil (x : R) (a : list R) (n i : nat) (sum : number) :
  fold_left (term (x :: a) []) (seq (S i) n) sum =
  fold_left (term a []) (seq i n) sum.
Proof.
  revert i sum. induction n as [|n IH]; intros i sum; simpl.
  - reflexivity.
  - rewrite IH. unfold term, get. simpl. destruct i; reflexivity.
Qed.

Lemma server_loop (a b : list R) (sum : number) :
  fold_left (term a b) (seq 0 (length a)) sum = accumulate sum a b.
Proof.
  revert b sum. induction a as [|x a IH]; intros b sum; simpl; trivial.
  destruct b as [|y b].
  - rewrite fold_left_seq_shift_nil, IH. reflexivity.
  - rewrite fold_left_seq_shift, IH. reflexivity.
Qed.

Lemma hd_error_skipn (b : list R) (i : nat) :
  hd_error (skipn i b) = nth_error b i.
Proof.
  revert i. induction b as [|y b IH]; intros [|i]; simpl; trivial.
Qed.

Lemma tl_skipn (b : list R) (i : nat) : tl (skipn i b) = skipn (S i) b.
Proof.
  revert i. induction b as [|y b IH]; intros [|i]; simpl; try reflexivity.
  apply IH.
Qed.

Lemma optimized_loop (a b : list R) (i : nat) (sum : number) :
  reduce_from i
    (fun sum val i => add sum (Math_pow (sub (Num val) (ToNumber (get b i))) 2))
    sum a
  = accumulate sum a (skipn i b).
Proof.
  revert i sum. induction a as [|x a IH]; intros i sum.
  - reflexivity.
  - cbn [reduce_from accumulate]. rewrite IH, hd_error_skipn, tl_skipn.
    reflexivity.
Qed.

Lemma Server_euclideanDistance_accumulate (a b : Descriptor) :
  Server.euclideanDistance a b = Math_sqrt (accumulate (Num 0) a b).
Proof.
  unfold Server.euclideanDistance. f_equal. apply server_loop.
Qed.

Lemma Optimized_euclideanDistance_accumulate (a b : Descriptor) :
  Optimized.euclideanDistance a b = Math_sqrt (accumulate (Num 0) a b).
Proof.
  unfold Optimized.euclideanDistance, reduce. f_equal. apply optimized_loop.
Qed.

Lemma euclideanDistance_same (a b : Descriptor) :
  Optimized.euclideanDistance a b = Server.euclideanDistance a b.
Proof.
  now rewrite Server_euclideanDistance_accumulate,
    Optimized_euclideanDistance_accumulate.
Qed.

Lemma sumSquares_cons (x y : R) (a b : Descriptor) :
  sumSquares (x :: a) (y :: b) = ((x - y) ^ 2 + sumSquares a b)%R.
Proof. reflexivity. Qed.

Lemma sumSquares_nil_r (a : Descriptor) : sumSquares a [] = 0%R.
Proof. destruct a; reflexivity. Qed.

Lemma sumSquares_nonneg (a b : Descriptor) : (0 <= sumSquares a b)%R.
Proof.
  revert b. induction a as [|x a IH]; intros [|y b];
    rewrite ?sumSquares_nil_r, ?sumSquares_cons; try (cbv; lra).
  specialize (IH b). pose proof (pow2_ge_0 (x - y)). lra.
Qed.

Lemma accumulate_NaN (a b : list R) : accumulate NaN a b = NaN.
Proof.
  revert b. induction a as [|x a IH]; intros b; simpl; trivial.
Qed.

Lemma accumulate_short (a b : list R) (s : R) :
  length a <= length b ->
  accumulate (Num s) a b = Num (s + sumSquares a b).
Proof.
  revert b s. induction a as [|x a IH]; intros b s Hlen.
  - cbn. f_equal. lra.
  - destruct b as [|y b]; simpl in Hlen; [lia|].
    cbn [accumulate hd_error tl ToNumber sub Math_pow add].
    rewrite IH by lia. rewrite sumSquares_cons. f_equal. lra.
Qed.

Lemma accumulate_long (a b : list R) (sum : number) :
  length b < length a -> accumulate sum a b = NaN.
Proof.
  revert b sum. induction a as [|x a IH]; intros b sum Hlen; simpl in *.
  - lia.
  - destruct b as [|y b]; simpl in *.
    + rewrite add_NaN_r. apply accumulate_NaN.
    + apply IH. lia.
Qed.

Lemma euclideanDistance_short (a b : Descriptor) :
  length a <= length b ->
  Server.euclideanDistance a b = Num (euclid a b).
Proof.
  intros Hlen. rewrite Server_euclideanDistance_accumulate.
  rewrite accumulate_short by trivial. cbn [Math_sqrt].
  pose proof (sumSquares_nonneg a b) as Hpos.
  replace (Rltb (0 + sumSquares a b) 0) with false
    by (symmetry; apply Rltb_false; lra).
  unfold euclid. do 2 f_equal. lra.
Qed.

Lemma euclideanDistance_long (a b : Descriptor) :
  length b < length a -> Server.euclideanDistance a b = NaN.
Proof.
  intros Hlen. rewrite Server_euclideanDistance_accumulate.
  now rewrite accumulate_long.
Qed.

Lemma sumSquares_firstn (a b : Descriptor) :
  sumSquares a (firstn (length a) b) = sumSquares a b.
Proof.
  revert b. induction a as [|x a IH]; intros [|y b]; trivial.
  cbn [length firstn]. now rewrite !sumSquares_cons, IH.
Qed.

Lemma sumSquares_sym (a b : Descriptor) : sumSquares a b = sumSquares b a.
Proof.
  revert b. induction a as [|x a IH]; intros [|y b]; trivial.
  rewrite !sumSquares_cons, IH. ring.
Qed.

Lemma sumSquares_refl (a : Descriptor) : sumSquares a a = 0%R.
Proof.
  induction a as [|x a IH]; trivial.
  rewrite sumSquares_cons, IH. ring.
Qed.

(** ** The scan of one probe *)

Lemma scanStudent_pairs (probe : Descriptor) (s : Student)
      (l : list Descriptor) (best : Server.Best) :
  fold_left (Server.visit probe s) l best =
  fold_left (visitPair probe) (map (pair s) l) best.
Proof.
  revert best. induction l as [|sd l IH]; intros best; simpl; trivial.
Qed.

Lemma scan_pairs_from (probe : Descriptor) (students : list Student)
      (best : Server.Best) :
  fold_left (Server.scanStudent probe) students best =
  fold_left (visitPair probe) (pairs students) best.
Proof.
  revert best. induction students as [|s rest IH]; intros best.
  - reflexivity.
  - cbn [fold_left pairs flat_map]. rewrite fold_left_app, IH.
    unfold Server.scanStudent at 1. now rewrite scanStudent_pairs.
Qed.

Lemma scan_pairs (students : list Student) (probe : Descriptor) :
  Server.scan students probe =
  fold_left (visitPair probe) (pairs students) Server.initial.
Proof. apply scan_pairs_from. Qed.

Lemma lt_false_trans (x y z : number) :
  lt x z = false -> lt y z = true -> lt x y = false.
Proof.
  intros Hxz Hyz. destruct (lt x y) eqn:Hxy; trivial.
  now rewrite (lt_trans _ _ _ Hxy Hyz) in Hxz.
Qed.

Lemma tracked_step (probe : Descriptor) (seen : list (Student * Descriptor))
      (best : Server.Best) (p : Student * Descriptor) :
  Tracked probe seen best ->
  Tracked probe (seen ++ [p]) (visitPair probe best p).
Proof.
  destruct p as [s' sd']. unfold visitPair, Server.visit. cbn [fst snd].
  set (d' := Server.euclideanDistance probe sd').
  intros [Hnone | before s stored after Hsplit Hlt Hmin Hfirst].
  - cbn [Server.bestDistance Server.initial].
    destruct (lt d' threshold) eqn:HdT; cbn [andb].
    + rewrite (lt_threshold_Infinity _ HdT).
      apply Tracked_some with (before := seen) (after := []); trivial.
      * intros p [Hp | [<- | []]]%in_app_or.
        -- apply lt_false_trans with threshold; auto.
        -- apply lt_irrefl.
      * intros p Hp Heq. apply Hnone in Hp. subst d'. congruence.
    + apply Tracked_none. intros p [Hp | [<- | []]]%in_app_or; auto.
  - cbn [Server.bestDistance won].
    set (d := Server.euclideanDistance probe stored) in *.
    destruct (lt d' threshold && lt d' d) eqn:Hcond.
    + apply andb_prop in Hcond as [HdT Hdd].
      apply Tracked_some with (before := seen) (after := []); trivial.
      * intros p [Hp | [<- | []]]%in_app_or.
        -- apply lt_false_trans with d; auto.
        -- apply lt_irrefl.
      * intros p Hp Heq. apply Hmin in Hp. subst d d'. congruence.
    + apply Tracked_some with (before := before) (after := after ++ [(s', sd')]);
        trivial.
      * rewrite Hsplit, <- app_assoc. reflexivity.
      * intros p [Hp | [<- | []]]%in_app_or; auto. cbn [snd]. fold d'.
        destruct (lt d' d) eqn:Hdd; trivial.
        rewrite (lt_trans _ _ _ Hdd Hlt) in Hcond. discriminate.
Qed.

Lemma tracked_fold (probe : Descriptor) (l seen : list (Student * Descriptor))
      (best : Server.Best) :
  Tracked probe seen best ->
  Tracked probe (seen ++ l) (fold_left (visitPair probe) l best).
Proof.
  revert seen best. induction l as [|p l IH]; intros seen best Hinv.
  - now rewrite app_nil_r.
  - cbn [fold_left]. replace (seen ++ p :: l) with ((seen ++ [p]) ++ l)
      by (now rewrite <- app_assoc).
    apply IH, tracked_step, Hinv.
Qed.

Lemma tracked_scan (students : list Student) (probe : Descriptor) :
  Tracked probe (pairs students) (Server.scan students probe).
Proof.
  rewrite scan_pairs. apply (tracked_fold probe (pairs students) []).
  apply Tracked_none. intros p [].
Qed.

(** ** The minimal distance *)

Lemma minimal_step (probe : Descriptor) (seen : list (Student * Descriptor))
      (best : number) (p : Student * Descriptor) :
  Minimal probe seen best ->
  Minimal probe (seen ++ [p]) (closer probe best p).
Proof.
  intros [Hnum Hbelow Hatt]. unfold closer.
  destruct (lt (Server.euclideanDistance probe (snd p)) best) eqn:Hlt.
  - split.
    + apply (lt_Num_l _ _ Hlt).
    + intros q [Hq | [<- | []]]%in_app_or.
      * apply lt_false_trans with best; auto.
      * apply lt_irrefl.
    + right. exists p. split; trivial. apply in_or_app. right. now left.
  - split; trivial.
    + intros q [Hq | [<- | []]]%in_app_or; auto.
    + destruct Hatt as [-> | (q & Hq & ->)]; [now left | right].
      exists q. split; trivial. apply in_or_app. now left.
Qed.

Lemma minimal_fold (probe : Descriptor) (l seen : list (Student * Descriptor))
      (best : number) :
  Minimal probe seen best ->
  Minimal probe (seen ++ l) (fold_left (closer probe) l best).
Proof.
  revert seen best. induction l as [|p l IH]; intros seen best Hinv.
  - now rewrite app_nil_r.
  - cbn [fold_left]. replace (seen ++ p :: l) with ((seen ++ [p]) ++ l)
      by (now rewrite <- app_assoc).
    apply IH, minimal_step, Hinv.
Qed.

Lemma minDistance_minimal (students : list Student) (probe : Descriptor) :
  Minimal probe (pairs students) (minDistance students probe).
Proof.
  apply (minimal_fold probe (pairs students) []).
  split; [discriminate | intros p [] | now left].
Qed.

Lemma lt_antisym (x y : number) :
  x <> NaN -> y <> NaN -> lt x y = false -> lt y x = false -> x = y.
Proof.
  destruct x, y; simpl; try congruence.
  rewrite !Rltb_false. intros _ _ H1 H2. f_equal. lra.
Qed.

(** The distance of a tracked winner is the minimal distance. *)
Lemma tracked_minDistance (students : list Student) (probe : Descriptor)
      (s : Student) (stored : Descriptor) :
  In (s, stored) (pairs students) ->
  lt (Server.euclideanDistance probe stored) threshold = true ->
  (forall p, In p (pairs students) ->
             lt (Server.euclideanDistance probe (snd p))
                (Server.euclideanDistance probe stored) = false) ->
  Server.euclideanDistance probe stored = minDistance students probe.
Proof.
  intros Hin Hlt Hmin.
  destruct (minDistance_minimal students probe) as [Hnum Hbelow Hatt].
  apply lt_antisym; trivial.
  - apply (lt_Num_l _ _ Hlt).
  - apply (Hbelow (s, stored) Hin).
  - destruct Hatt as [Heq | (q & Hq & Heq)]; rewrite Heq; auto.
    destruct (Server.euclideanDistance probe stored); reflexivity.
Qed.

(** ** The optimized variant formats what server.js selects *)

Lemma visit_format (probe : Descriptor) (s : Student) (best : Server.Best)
      (stored : Descriptor) :
  Optimized.visit probe s (formatBest best) stored =
  formatBest (Server.visit probe s best stored).
Proof.
  unfold Optimized.visit, Server.visit. rewrite euclideanDistance_same.
  cbn [formatBest Optimized.bestDistance].
  destruct (lt _ threshold && lt _ (Server.bestDistance best)); reflexivity.
Qed.

Lemma scanStudent_format (probe : Descriptor) (s : Student)
      (best : Server.Best) :
  Optimized.scanStudent probe (formatBest best) s =
  formatBest (Server.scanStudent probe best s).
Proof.
  unfold Optimized.scanStudent, Server.scanStudent.
  revert best. induction (faceDescriptors s) as [|sd l IH]; intros best.
  - reflexivity.
  - cbn [fold_left]. now rewrite visit_format, IH.
Qed.

Lemma scan_format (students : list Student) (probe : Descriptor) :
  Optimized.scan students probe = formatBest (Server.scan students probe).
Proof.
  unfold Optimized.scan, Server.scan.
  change Optimized.initial with (formatBest Server.initial).
  generalize Server.initial as best.
  induction students as [|s rest IH]; intros best.
  - reflexivity.
  - cbn [fold_left]. now rewrite scanStudent_format, IH.
Qed.

Lemma Optimized_bestMatch (students : list Student) (probe : Descriptor) :
  Optimized.bestMatch (Optimized.scan students probe) =
  option_map format (Server.bestMatch (Server.scan students probe)).
Proof. now rewrite scan_format. Qed.

(** ** The loop over the probes *)

Lemma Server_matchAll_from (students : list Student) (probes : list Descriptor)
      (matches : list Server.Match) :
  fold_left (Server.step students) probes matches =
  matches ++
  flat_map (fun probe => entries (Server.bestMatch (Server.scan students probe)))
           probes.
Proof.
  revert matches. induction probes as [|probe rest IH]; intros matches.
  - cbn. now rewrite app_nil_r.
  - cbn [fold_left flat_map]. rewrite IH. unfold Server.step.
    destruct (Server.bestMatch (Server.scan students probe)); cbn [entries].
    + now rewrite <- app_assoc.
    + reflexivity.
Qed.

Lemma Server_matchAll_entries (students : list Student)
      (probes : list Descriptor) :
  Server.matchAll students probes =
  flat_map (fun probe => entries (Server.bestMatch (Server.scan students probe)))
           probes.
Proof. apply (Server_matchAll_from students probes []). Qed.

Lemma Optimized_matchAll_from (students : list Student)
      (probes : list Descriptor) (matches : list Optimized.Match) :
  fold_left (Optimized.step students) probes matches =
  matches ++
  flat_map
    (fun probe => entries (Optimized.bestMatch (Optimized.scan students probe)))
    probes.
Proof.
  revert matches. induction probes as [|probe rest IH]; intros matches.
  - cbn. now rewrite app_nil_r.
  - cbn [fold_left flat_map]. rewrite IH. unfold Optimized.step.
    destruct (Optimized.bestMatch (Optimized.scan students probe));
      cbn [entries].
    + now rewrite <- app_assoc.
    + reflexivity.
Qed.

Lemma Optimized_matchAll_entries (students : list Student)
      (probes : list Descriptor) :
  Optimized.matchAll students probes =
  flat_map
    (fun probe => entries (Optimized.bestMatch (Optimized.scan students probe)))
    probes.
Proof. apply (Optimized_matchAll_from students probes []). Qed.

Lemma entries_length {M : Type} (o : option M) : length (entries o) <= 1.
Proof. destruct o; simpl; lia. Qed.

Lemma flat_map_entries_length {A M : Type} (f : A -> option M) (l : list A) :
  length (flat_map (fun x => entries (f x)) l) <= length l.
Proof.
  induction l as [|x l IH]; simpl; trivial.
  rewrite length_app. pose proof (entries_length (f x)). lia.
Qed.

(** ** Formatting *)

Lemma toFixed_unit (r : R) (f : nat) (n : Z) :
  (0 <= r <= 1)%R ->
  (IZR n <= r * 10 ^ f + 1 / 2 < IZR n + 1)%R ->
  toFixed (Num r) f = Text (placePoint n f).
Proof.
  intros Hr Hn. unfold toFixed.
  replace (Rltb r 0) with false by (symmetry; apply Rltb_false; lra).
  assert (H21 : (1 < 10 ^ 21)%R) by (apply Rlt_pow_R1; [lra | lia]).
  replace (Rltb r (10 ^ 21)) with true by (symmetry; apply Rltb_true; lra).
  rewrite <- (Int_part_spec (r * 10 ^ f + 1 / 2) n) by lra.
  reflexivity.
Qed.

(** ** Evaluating the route on concrete descriptors *)

Lemma euclideanDistance_eval (a b : Descriptor) (c : R) :
  length a <= length b -> (0 <= c)%R -> sumSquares a b = (c * c)%R ->
  Server.euclideanDistance a b = Num c.
Proof.
  intros Hlen Hc Hsum. rewrite euclideanDistance_short by trivial.
  f_equal. unfold euclid. rewrite Hsum. now apply sqrt_square.
Qed.

Lemma visit_hit (probe : Descriptor) (s : Student) (best : Server.Best)
      (stored : Descriptor) (c : R) :
  Server.euclideanDistance probe stored = Num c ->
  (c < 0.6)%R ->
  lt (Num c) (Server.bestDistance best) = true ->
  Server.visit probe s best stored =
  {| Server.bestMatch :=
       Some {| Server.student := infoOf s;
               Server.confidence := Num (1 - c);
               Server.distance := Num c |};
     Server.bestDistance := Num c |}.
Proof.
  intros Hd Hc Hbest. unfold Server.visit. rewrite Hd, Hbest.
  cbn [lt threshold sub].
  replace (Rltb c 0.6) with true by (symmetry; now apply Rltb_true).
  reflexivity.
Qed.

Lemma visit_far (probe : Descriptor) (s : Student) (best : Server.Best)
      (stored : Descriptor) (c : R) :
  Server.euclideanDistance probe stored = Num c ->
  (0.6 <= c)%R ->
  Server.visit probe s best stored = best.
Proof.
  intros Hd Hc. unfold Server.visit. rewrite Hd. cbn [lt threshold].
  replace (Rltb c 0.6) with false by (symmetry; now apply Rltb_false).
  reflexivity.
Qed.

Lemma visit_kept (probe : Descriptor) (s : Student) (best : Server.Best)
      (stored : Descriptor) :
  lt (Server.euclideanDistance probe stored) (Server.bestDistance best) = false ->
  Server.visit probe s best stored = best.
Proof.
  intros Hd. unfold Server.visit. rewrite Hd, andb_false_r. reflexivity.
Qed.

Lemma visit_NaN (probe : Descriptor) (s : Student) (best : Server.Best)
      (stored : Descriptor) :
  Server.euclideanDistance probe stored = NaN ->
  Server.visit probe s best stored = best.
Proof.
  intros Hd. unfold Server.visit. rewrite Hd. reflexivity.
Qed.

(** ** Consequences of the invariants *)

Lemma scan_match_inv (students : list Student) (probe : Descriptor)
      (m : Server.Match) :
  Server.bestMatch (Server.scan students probe) = Some m ->
  exists before s stored after,
    pairs students = before ++ (s, stored) :: after /\
    m = {| Server.student := infoOf s;
           Server.confidence := sub (Num 1) (Server.euclideanDistance probe stored);
           Server.distance := Server.euclideanDistance probe stored |} /\
    lt (Server.euclideanDistance probe stored) threshold = true /\
    (forall p, In p (pairs students) ->
               lt (Server.euclideanDistance probe (snd p))
                  (Server.euclideanDistance probe stored) = false) /\
    (forall p, In p before ->
               Server.euclideanDistance probe (snd p) <>
               Server.euclideanDistance probe stored).
Proof.
  intros Hm. destruct (tracked_scan students probe)
    as [Hnone | before s stored after Hsplit Hlt Hmin Hfirst].
  - discriminate Hm.
  - exists before, s, stored, after. cbn [won Server.bestMatch] in Hm.
    injection Hm as <-. auto.
Qed.

Lemma scan_match_iff (students : list Student) (probe : Descriptor) :
  (exists m, Server.bestMatch (Server.scan students probe) = Some m) <->
  (exists p, In p (pairs students) /\
             lt (Server.euclideanDistance probe (snd p)) threshold = true).
Proof.
  split.
  - intros [m Hm].
    destruct (scan_match_inv _ _ _ Hm)
      as (before & s & stored & after & Hsplit & _ & Hlt & _).
    exists (s, stored). split; trivial.
    rewrite Hsplit. apply in_or_app. right. now left.
  - intros (p & Hp & Hlt).
    destruct (tracked_scan students probe)
      as [Hnone | before s stored after Hsplit _ _ _].
    + rewrite (Hnone p Hp) in Hlt. discriminate.
    + eexists. reflexivity.
Qed.

Lemma minDistance_below_iff (students : list Student) (probe : Descriptor) :
  lt (minDistance students probe) threshold = true <->
  (exists p, In p (pairs students) /\
             lt (Server.euclideanDistance probe (snd p)) threshold = true).
Proof.
  destruct (minDistance_minimal students probe) as [Hnum Hbelow Hatt].
  split.
  - intros Hlt. destruct Hatt as [Heq | (p & Hp & Heq)].
    + rewrite Heq in Hlt. discriminate.
    + exists p. split; trivial. now rewrite <- Heq.
  - intros (p & Hp & Hlt).
    destruct (lt (minDistance students probe) threshold) eqn:Hmin; trivial.
    pose proof (Hbelow p Hp) as Hp'.
    assert (Hcmp : lt threshold (minDistance students probe) = false).
    { destruct (lt threshold (minDistance students probe)) eqn:H; trivial.
      now rewrite (lt_trans _ _ _ Hlt H) in Hp'. }
    assert (Heq : minDistance students probe = threshold).
    { apply lt_antisym; trivial. discriminate. }
    rewrite Heq in Hp'. congruence.
Qed.

Lemma scan_match_minDistance (students : list Student) (probe : Descriptor)
      (m : Server.Match) :
  Server.bestMatch (Server.scan students probe) = Some m ->
  Server.distance m = minDistance students probe.
Proof.
  intros Hm. destruct (scan_match_inv _ _ _ Hm)
    as (before & s & stored & after & Hsplit & -> & Hlt & Hmin & _).
  cbn [Server.distance]. apply tracked_minDistance with s; trivial.
  rewrite Hsplit. apply in_or_app. right. now left.
Qed.

Lemma euclideanDistance_range (a b : Descriptor) :
  Server.euclideanDistance a b = NaN \/
  exists r, (0 <= r)%R /\ Server.euclideanDistance a b = Num r.
Proof.
  destruct (le_lt_dec (length a) (length b)) as [Hle | Hgt].
  - right. exists (euclid a b). split.
    + apply sqrt_pos.
    + now apply euclideanDistance_short.
  - left. now apply euclideanDistance_long.
Qed.

(** ** The query *)

Lemma isEmpty_true {A : Type} (arr : list A) : isEmpty arr = true <-> arr = [].
Proof. destruct arr; simpl; split; intros; congruence. Qed.

Lemma isEmpty_false {A : Type} (arr : list A) :
  isEmpty arr = false <-> arr <> [].
Proof. destruct arr; simpl; split; intros; congruence. Qed.

Lemma ne_empty_true {A : Type} (field : list (list A)) :
  ne_empty field = true <->
  field <> [] /\ (forall element, In element field -> element <> []).
Proof.
  unfold ne_empty. rewrite andb_true_iff, negb_true_iff, isEmpty_false.
  rewrite forallb_forall. split; intros [Hfield Hall]; split; trivial.
  - intros element Hin. apply isEmpty_false, negb_true_iff. now apply Hall.
  - intros element Hin. apply negb_true_iff, isEmpty_false. now apply Hall.
Qed.

Lemma hasDescriptors_true (s : Student) :
  hasDescriptors s = true <->
  faceDescriptors s <> [] /\
  (forall stored, In stored (faceDescriptors s) -> stored <> []).
Proof. apply ne_empty_true. Qed.

Lemma findWithDescriptors_In (collection : list Student) (s : Student) :
  In s (findWithDescriptors collection) <->
  In s collection /\ hasDescriptors s = true.
Proof. apply filter_In. Qed.

Lemma findWithDescriptors_holds (collection : list Student) (s : Student)
      (stored : Descriptor) :
  In s collection -> In stored (faceDescriptors s) ->
  (forall d, In d (faceDescriptors s) -> d <> []) ->
  In s (findWithDescriptors collection).
Proof.
  intros Hs Hstored Hall. apply findWithDescriptors_In. split; trivial.
  apply hasDescriptors_true. split; trivial.
  intros Hnil. now rewrite Hnil in Hstored.
Qed.

Lemma findWithDescriptors_none (collection : list Student) :
  (forall s, In s collection -> faceDescriptors s = []) ->
  findWithDescriptors collection = [].
Proof.
  induction collection as [|s rest IH]; intros Hall; trivial.
  cbn [findWithDescriptors filter]. unfold hasDescriptors.
  rewrite (Hall s) by now left. cbn [ne_empty isEmpty negb andb].
  apply IH. intros s' Hs'. apply Hall. now right.
Qed.

(** Students without descriptors add no pair to the scan. *)
Lemma pairs_skip_empty (students : list Student) :
  pairs (filter (fun s => negb (isEmpty (faceDescriptors s))) students) =
  pairs students.
Proof.
  induction students as [|s rest IH]; trivial.
  cbn [filter pairs flat_map] in *.
  destruct (faceDescriptors s) eqn:Hs; cbn [isEmpty negb].
  - exact IH.
  - cbn [flat_map]. rewrite Hs. now f_equal.
Qed.

Lemma scan_skip_empty (students : list Student) (probe : Descriptor) :
  Server.scan (filter (fun s => negb (isEmpty (faceDescriptors s))) students)
              probe =
  Server.scan students probe.
Proof. now rewrite !scan_pairs, pairs_skip_empty. Qed.

Lemma pairs_no_descriptors (students : list Student) :
  (forall s, In s students -> faceDescriptors s = []) -> pairs students = [].
Proof.
  induction students as [|s rest IH]; intros Hall; trivial.
  cbn [pairs flat_map]. rewrite (Hall s) by now left.
  apply IH. intros s' Hs'. apply Hall. now right.
Qed.

Lemma in_pairs (students : list Student) (s : Student) (stored : Descriptor) :
  In s students -> In stored (faceDescriptors s) ->
  In (s, stored) (pairs students).
Proof.
  intros Hs Hd. apply in_flat_map. exists s. split; trivial.
  now apply in_map.
Qed.

(** ** Sample runs *)

Ltac sum_squares := cbv [sumSquares combine map fold_right fst snd pow]; lra.
Ltac distance_is :=
  apply euclideanDistance_eval; [simpl; lia | lra | sum_squares].

Lemma scan_single (s : Student) (stored probe : Descriptor) :
  faceDescriptors s = [stored] ->
  Server.scan [s] probe = Server.visit probe s Server.initial stored.
Proof.
  intros Hs. unfold Server.scan, Server.scanStudent. cbn [fold_left].
  now rewrite Hs.
Qed.

Lemma recognize_entries (collection : list Student) (probes : list Descriptor) :
  Server.recognize collection (body probes) =
  Json200
    (flat_map
       (fun probe =>
          entries (Server.bestMatch
                     (Server.scan (findWithDescriptors collection) probe)))
       probes).
Proof.
  unfold Server.recognize, body. cbn [detectedDescriptors].
  now rewrite Server_matchAll_entries.
Qed.

Lemma Optimized_recognize_entries (collection : list Student)
      (probes : list Descriptor) :
  Optimized.recognize collection (body probes) =
  Json200
    (flat_map
       (fun probe =>
          entries (option_map format
                     (Server.bestMatch
                        (Server.scan (findWithDescriptors collection) probe))))
       probes).
Proof.
  unfold Optimized.recognize, body. cbn [detectedDescriptors].
  rewrite Optimized_matchAll_entries. f_equal.
  induction probes as [|probe rest IH]; trivial.
  cbn [flat_map]. now rewrite IH, Optimized_bestMatch.
Qed.

Lemma format_hit (s : Student) (c d : R) (n k : Z) :
  (0 <= c <= 1)%R -> (0 <= d <= 1)%R ->
  (IZR n <= c * 10 ^ 2 + 1 / 2 < IZR n + 1)%R ->
  (IZR k <= d * 10 ^ 3 + 1 / 2 < IZR k + 1)%R ->
  format (hit s c d) = hitText s (placePoint n 2) (placePoint k 3).
Proof.
  intros Hc Hd Hn Hk. unfold format, hit, hitText.
  cbn [Server.student Server.confidence Server.distance].
  now rewrite (toFixed_unit c 2 n), (toFixed_unit d 3 k).
Qed.

Example asha_same :
  Server.scan [asha] [0; 0]%R =
  {| Server.bestMatch := Some (hit asha 1 0); Server.bestDistance := Num 0 |}.
Proof.
  rewrite (scan_single asha [0; 0]%R) by reflexivity.
  rewrite (visit_hit _ _ _ _ 0); [ | distance_is | lra | reflexivity].
  unfold hit. do 4 f_equal. lra.
Qed.

Example asha_far : Server.scan [asha] [1; 0]%R = Server.initial.
Proof.
  rewrite (scan_single asha [0; 0]%R) by reflexivity.
  apply (visit_far _ _ _ _ 1); [distance_is | lra].
Qed.

Example asha_short_probe :
  Server.scan [asha] [0%R] =
  {| Server.bestMatch := Some (hit asha 1 0); Server.bestDistance := Num 0 |}.
Proof.
  rewrite (scan_single asha [0; 0]%R) by reflexivity.
  rewrite (visit_hit _ _ _ _ 0); [ | distance_is | lra | reflexivity].
  unfold hit. do 4 f_equal. lra.
Qed.

Example asha_long_probe : Server.scan [asha] [0; 0; 0]%R = Server.initial.
Proof.
  rewrite (scan_single asha [0; 0]%R) by reflexivity.
  apply visit_NaN, euclideanDistance_long. simpl. lia.
Qed.

Example asha_boundary : Server.scan [asha] [0.6; 0]%R = Server.initial.
Proof.
  rewrite (scan_single asha [0; 0]%R) by reflexivity.
  apply (visit_far _ _ _ _ 0.6); [distance_is | lra].
Qed.

Example asha_close :
  Server.scan [asha] [0.0004; 0]%R =
  {| Server.bestMatch := Some (hit asha 0.9996 0.0004);
     Server.bestDistance := Num 0.0004 |}.
Proof.
  rewrite (scan_single asha [0; 0]%R) by reflexivity.
  rewrite (visit_hit _ _ _ _ 0.0004); [ | distance_is | lra | reflexivity].
  unfold hit. do 4 f_equal. lra.
Qed.

Example tie_asha_ravi :
  Server.scan [asha; ravi] [0; 0.15]%R =
  {| Server.bestMatch := Some (hit asha 0.85 0.15);
     Server.bestDistance := Num 0.15 |}.
Proof.
  unfold Server.scan, Server.scanStudent.
  cbn [fold_left asha ravi faceDescriptors].
  rewrite (visit_hit [0; 0.15]%R _ Server.initial [0; 0]%R 0.15);
    [ | distance_is | lra | reflexivity].
  rewrite visit_kept.
  - unfold hit. do 4 f_equal. lra.
  - cbn [Server.bestDistance].
    replace (Server.euclideanDistance [0; 0.15]%R [0; 0.3]%R) with (Num 0.15)
      by (symmetry; distance_is).
    apply lt_irrefl.
Qed.

(** The end-to-end example of the specification: gallery S1 at (0, 0) and S2
    at (10, 10), probe (0.1, 0.1); one match, to S1, at distance
    sqrt 0.02 = 0.1414... *)
Example end_to_end :
  exists d, (0.1414 < d < 0.1415)%R /\
            Server.recognize [asha; zoya] (body [[0.1; 0.1]%R]) =
              Json200 [hit asha (1 - d) d].
Proof.
  exists (sqrt 0.02). split.
  - rewrite <- (sqrt_square 0.1414), <- (sqrt_square 0.1415) by lra.
    split; apply sqrt_lt_1; lra.
  - assert (Hd : (sqrt 0.02 < 0.6)%R).
    { rewrite <- (sqrt_square 0.6) by lra. apply sqrt_lt_1; lra. }
    rewrite recognize_entries.
    change (findWithDescriptors [asha; zoya]) with [asha; zoya].
    unfold Server.scan, Server.scanStudent.
    cbn [flat_map fold_left asha zoya faceDescriptors].
    rewrite (visit_hit [0.1; 0.1]%R _ Server.initial [0; 0]%R (sqrt 0.02));
      [ | | exact Hd | reflexivity].
    + rewrite (visit_far _ _ _ _ (sqrt 196.02)); [reflexivity | | ].
      * rewrite euclideanDistance_short by (simpl; lia).
        unfold euclid. do 2 f_equal. sum_squares.
      * rewrite <- (sqrt_square 0.6) by lra. apply sqrt_le_1; lra.
    + rewrite euclideanDistance_short by (simpl; lia).
      unfold euclid. do 2 f_equal. sum_squares.
Qed.

Example distance_boundary :
  Server.euclideanDistance [0.6; 0]%R [0; 0]%R = Num 0.6.
Proof. distance_is. Qed.

Lemma Optimized_visit_kept (probe : Descriptor) (s : Student)
      (best : Optimized.Best) (stored : Descriptor) :
  lt (Optimized.euclideanDistance probe stored) (Optimized.bestDistance best)
    = false ->
  Optimized.visit probe s best stored = best.
Proof.
  intros Hd. unfold Optimized.visit. rewrite Hd, andb_false_r. reflexivity.
Qed.

Lemma recognize_one (collection : list Student) (probe : Descriptor)
      (m : Server.Match) :
  Server.bestMatch (Server.scan (findWithDescriptors collection) probe)
    = Some m ->
  Server.recognize collection (body [probe]) = Json200 [m] /\
  Optimized.recognize collection (body [probe]) = Json200 [format m].
Proof.
  intros Hm.
  rewrite recognize_entries, Optimized_recognize_entries. cbn [flat_map].
  now rewrite Hm.
Qed.

Lemma recognize_none (collection : list Student) (probe : Descriptor) :
  Server.bestMatch (Server.scan (findWithDescriptors collection) probe)
    = None ->
  Server.recognize collection (body [probe]) = Json200 [] /\
  Optimized.recognize collection (body [probe]) = Json200 [].
Proof.
  intros Hm.
  rewrite recognize_entries, Optimized_recognize_entries. cbn [flat_map].
  now rewrite Hm.
Qed.

(** One turn of the loop over the probes, by the minimal distance. *)
Lemma step_below (students : list Student) (probe : Descriptor) :
  lt (minDistance students probe) threshold = true ->
  exists m,
    Server.bestMatch (Server.scan students probe) = Some m /\
    Server.distance m = minDistance students probe /\
    (forall matches, Server.step students matches probe = matches ++ [m]) /\
    (forall matches,
        Optimized.step students matches probe = matches ++ [format m]).
Proof.
  intros Hlt.
  destruct (proj2 (scan_match_iff students probe)) as [m Hm].
  { now apply minDistance_below_iff. }
  exists m. split; [exact Hm | split; [ | split]].
  - now apply scan_match_minDistance.
  - intros matches. unfold Server.step. now rewrite Hm.
  - intros matches. unfold Optimized.step.
    now rewrite Optimized_bestMatch, Hm.
Qed.

Lemma step_not_below (students : list Student) (probe : Descriptor) :
  lt (minDistance students probe) threshold = false ->
  Server.bestMatch (Server.scan students probe) = None /\
  (forall matches, Server.step students matches probe = matches) /\
  (forall matches, Optimized.step students matches probe = matches).
Proof.
  intros Hlt.
  assert (Hm : Server.bestMatch (Server.scan students probe) = None).
  { destruct (Server.bestMatch (Server.scan students probe)) as [m|] eqn:Hm;
      trivial.
    assert (H : lt (minDistance students probe) threshold = true).
    { apply minDistance_below_iff, scan_match_iff. eauto. }
    congruence. }
  split; [exact Hm | split].
  - intros matches. unfold Server.step. now rewrite Hm.
  - intros matches. unfold Optimized.step.
    now rewrite Optimized_bestMatch, Hm.
Qed.

(** The probes that have a match: those whose minimal distance is below the
    threshold. *)
Lemma entries_length_below (students : list Student)
      (probes : list Descriptor) :
  length
    (flat_map
       (fun probe => entries (Server.bestMatch (Server.scan students probe)))
       probes) =
  length
    (filter (fun probe => lt (minDistance students probe) threshold) probes).
Proof.
  induction probes as [|probe rest IH]; trivial.
  cbn [flat_map filter]. rewrite length_app, IH.
  destruct (lt (minDistance students probe) threshold) eqn:Hlt.
  - destruct (step_below _ _ Hlt) as (m & -> & _). reflexivity.
  - destruct (step_not_below _ _ Hlt) as (-> & _). reflexivity.
Qed.

Lemma Optimized_entries_length (students : list Student)
      (probes : list Descriptor) :
  length
    (flat_map
       (fun probe =>
          entries (Optimized.bestMatch (Optimized.scan students probe)))
       probes) =
  length
    (flat_map
       (fun probe => entries (Server.bestMatch (Server.scan students probe)))
       probes).
Proof.
  induction probes as [|probe rest IH]; trivial.
  cbn [flat_map]. rewrite !length_app, IH, Optimized_bestMatch.
  now destruct (Server.bestMatch (Server.scan students probe)).
Qed.

(** * The claims *)

(** C1 (as stated, refuted): a batch of two probes, of which only the first
    is within the threshold of the gallery, is answered with one entry: the
    probe that matched nothing has no entry of its own. *)
Lemma C1_counterexample :
  Server.recognize [asha] (body [[0; 0]; [1; 0]]%R) = Json200 [hit asha 1 0] /\
  Optimized.recognize [asha] (body [[0; 0]; [1; 0]]%R) =
    Json200 [hitText asha "1.00" "0.000"] /\
  length [hit asha 1 0] <> length [[0; 0]; [1; 0]]%R.
Proof.
  split; [ | split].
  - rewrite recognize_entries. change (findWithDescriptors [asha]) with [asha].
    cbn [flat_map]. now rewrite asha_same, asha_far.
  - rewrite Optimized_recognize_entries.
    change (findWithDescriptors [asha]) with [asha].
    cbn [flat_map]. rewrite asha_same, asha_far.
    cbn [Server.bestMatch Server.initial option_map entries app].
    rewrite (format_hit asha 1 0 100 0);
      [reflexivity | lra .. | simpl; lra | simpl; lra].
  - simpl. lia.
Qed.

(** C1 (amended): the answer lists, in the order of the probes, the match of
    every probe that has one; a probe without a match contributes no entry,
    so the answer has at most one entry per probe. *)
Theorem C1_entries_of_matching_probes
        (collection : list Student) (probes : list Descriptor) :
  Server.recognize collection (body probes) =
    Json200
      (flat_map
         (fun probe =>
            entries (Server.bestMatch
                       (Server.scan (findWithDescriptors collection) probe)))
         probes) /\
  Optimized.recognize collection (body probes) =
    Json200
      (flat_map
         (fun probe =>
            entries (Optimized.bestMatch
                       (Optimized.scan (findWithDescriptors collection) probe)))
         probes) /\
  length (Server.matchAll (findWithDescriptors collection) probes)
    <= length probes /\
  length (Optimized.matchAll (findWithDescriptors collection) probes)
    <= length probes.
Proof.
  split; [ | split; [ | split]].
  - apply recognize_entries.
  - unfold Optimized.recognize, body. cbn [detectedDescriptors].
    now rewrite Optimized_matchAll_entries.
  - rewrite Server_matchAll_entries. apply flat_map_entries_length.
  - rewrite Optimized_matchAll_entries. apply flat_map_entries_length.
Qed.

(** C2 (as stated, refuted): against a stored descriptor of length 2, a probe
    of length 1 and a probe of length 3 are both answered normally, the first
    with a match found on the truncated comparison, the second with no
    match. *)
Lemma C2_counterexample :
  faceDescriptors asha = [[0; 0]%R] /\
  Server.recognize [asha] (body [[0%R]]) = Json200 [hit asha 1 0] /\
  Server.recognize [asha] (body [[0; 0; 0]%R]) = Json200 [] /\
  Optimized.recognize [asha] (body [[0%R]]) =
    Json200 [hitText asha "1.00" "0.000"] /\
  Optimized.recognize [asha] (body [[0; 0; 0]%R]) = Json200 [].
Proof.
  split; [reflexivity | split; [ | split; [ | split]]].
  - rewrite recognize_entries. change (findWithDescriptors [asha]) with [asha].
    cbn [flat_map]. now rewrite asha_short_probe.
  - rewrite recognize_entries. change (findWithDescriptors [asha]) with [asha].
    cbn [flat_map]. now rewrite asha_long_probe.
  - rewrite Optimized_recognize_entries.
    change (findWithDescriptors [asha]) with [asha].
    cbn [flat_map]. rewrite asha_short_probe.
    cbn [Server.bestMatch option_map entries app].
    rewrite (format_hit asha 1 0 100 0);
      [reflexivity | lra .. | simpl; lra | simpl; lra].
  - rewrite Optimized_recognize_entries.
    change (findWithDescriptors [asha]) with [asha].
    cbn [flat_map]. now rewrite asha_long_probe.
Qed.

(** C2 (amended): a call with an array of probes never fails, whatever the
    lengths of the descriptors: the answer is the list of matches.  A stored
    descriptor shorter than the probe is at distance NaN from it and leaves
    the current best untouched; a stored descriptor longer than the probe is
    compared on the indices of the probe only. *)
Theorem C2_unequal_lengths_do_not_fail
        (collection : list Student) (probes : list Descriptor) :
  Server.recognize collection (body probes) =
    Json200 (Server.matchAll (findWithDescriptors collection) probes) /\
  Optimized.recognize collection (body probes) =
    Json200 (Optimized.matchAll (findWithDescriptors collection) probes) /\
  (forall probe stored s,
      length stored < length probe ->
      Server.euclideanDistance probe stored = NaN /\
      Optimized.euclideanDistance probe stored = NaN /\
      (forall best, Server.visit probe s best stored = best) /\
      (forall best, Optimized.visit probe s best stored = best)) /\
  (forall probe stored,
      length probe < length stored ->
      Server.euclideanDistance probe stored =
        Num (euclid probe (firstn (length probe) stored)) /\
      Optimized.euclideanDistance probe stored =
        Num (euclid probe (firstn (length probe) stored))).
Proof.
  split; [reflexivity | split; [reflexivity | split]].
  - intros probe stored s Hlen.
    pose proof (euclideanDistance_long probe stored Hlen) as Hnan.
    repeat split; trivial.
    + now rewrite euclideanDistance_same.
    + intros best. now apply visit_NaN.
    + intros best. unfold Optimized.visit.
      now rewrite euclideanDistance_same, Hnan.
  - intros probe stored Hlen.
    rewrite euclideanDistance_same, euclideanDistance_short by lia.
    unfold euclid. now rewrite sumSquares_firstn.
Qed.

(** C3: the match emitted for a probe belongs to the identity that owns the
    minimal distance over all (identity, descriptor) pairs of the gallery, and
    among the pairs at that distance to the first one in iteration order,
    in both files: a candidate that is not strictly closer than the current
    best leaves it in place. *)
Theorem C3_first_pair_at_minimal_distance
        (students : list Student) (probe : Descriptor) :
  (forall m,
      Server.bestMatch (Server.scan students probe) = Some m ->
      Server.distance m = minDistance students probe /\
      exists s, Server.student m = infoOf s /\
                firstMinimal students probe s (minDistance students probe)) /\
  (forall m,
      Optimized.bestMatch (Optimized.scan students probe) = Some m ->
      exists s, Optimized.student m = infoOf s /\
                firstMinimal students probe s (minDistance students probe)) /\
  (forall s best stored,
      lt (Server.euclideanDistance probe stored) (Server.bestDistance best)
        = false ->
      Server.visit probe s best stored = best) /\
  (forall s best stored,
      lt (Optimized.euclideanDistance probe stored)
         (Optimized.bestDistance best) = false ->
      Optimized.visit probe s best stored = best).
Proof.
  assert (Hserver : forall m,
             Server.bestMatch (Server.scan students probe) = Some m ->
             Server.distance m = minDistance students probe /\
             exists s, Server.student m = infoOf s /\
                       firstMinimal students probe s
                                    (minDistance students probe)).
  { intros m Hm. pose proof (scan_match_minDistance _ _ _ Hm) as Hmin.
    split; trivial.
    destruct (scan_match_inv _ _ _ Hm)
      as (before & s & stored & after & Hsplit & -> & Hlt & Hbelow & Hfirst).
    cbn [Server.distance] in Hmin. exists s. split; trivial.
    exists before, stored, after. rewrite <- Hmin. auto. }
  split; [exact Hserver | split; [ | split]].
  - intros m' Hm'. rewrite Optimized_bestMatch in Hm'.
    destruct (Server.bestMatch (Server.scan students probe)) as [m|];
      [ | discriminate].
    injection Hm' as <-. destruct (Hserver m eq_refl) as (_ & s & Hs & Hfirst).
    exists s. auto.
  - intros s best stored. apply visit_kept.
  - intros s best stored. apply Optimized_visit_kept.
Qed.

(** C3 at a tie: both students hold a descriptor at distance 0.15 from the
    probe, and the first one is matched. *)
Lemma C3_witness :
  Server.bestMatch (Server.scan [asha; ravi] [0; 0.15]%R) =
    Some (hit asha 0.85 0.15) /\
  Server.distance (hit asha 0.85 0.15) = minDistance [asha; ravi] [0; 0.15]%R /\
  exists s, Server.student (hit asha 0.85 0.15) = infoOf s /\
            firstMinimal [asha; ravi] [0; 0.15]%R s
                         (minDistance [asha; ravi] [0; 0.15]%R).
Proof.
  assert (H : Server.bestMatch (Server.scan [asha; ravi] [0; 0.15]%R) =
              Some (hit asha 0.85 0.15)) by (now rewrite tie_asha_ravi).
  split; [exact H | ].
  exact (proj1 (C3_first_pair_at_minimal_distance [asha; ravi] [0; 0.15]%R)
               (hit asha 0.85 0.15) H).
Defined.

(** C4: a probe gets a match exactly when the minimal distance over all pairs
    of the gallery is strictly below the threshold 0.6; a minimal distance
    equal to the threshold gives no match.  The loop over the probes pushes
    the match of such a probe, which carries that minimal distance, and
    pushes nothing for any other probe: the route answers a probe alone with
    one match when the minimal distance over the students of the query is
    below the threshold and with the empty list when it is not, and it
    answers a batch with as many matches as the batch has probes whose
    minimal distance is below the threshold. *)
Theorem C4_match_iff_minimum_below_threshold
        (collection students : list Student) (probes : list Descriptor)
        (probe : Descriptor) :
  ((exists m, Server.bestMatch (Server.scan students probe) = Some m) <->
   lt (minDistance students probe) threshold = true) /\
  ((exists m, Optimized.bestMatch (Optimized.scan students probe) = Some m) <->
   lt (minDistance students probe) threshold = true) /\
  (minDistance students probe = threshold ->
   Server.bestMatch (Server.scan students probe) = None /\
   Optimized.bestMatch (Optimized.scan students probe) = None) /\
  (lt (minDistance students probe) threshold = true ->
   exists m,
     Server.distance m = minDistance students probe /\
     (forall matches, Server.step students matches probe = matches ++ [m]) /\
     (forall matches,
         Optimized.step students matches probe = matches ++ [format m])) /\
  (lt (minDistance students probe) threshold = false ->
   (forall matches, Server.step students matches probe = matches) /\
   (forall matches, Optimized.step students matches probe = matches)) /\
  (lt (minDistance (findWithDescriptors collection) probe) threshold = true ->
   exists m,
     Server.distance m = minDistance (findWithDescriptors collection) probe /\
     Server.recognize collection (body [probe]) = Json200 [m] /\
     Optimized.recognize collection (body [probe]) = Json200 [format m]) /\
  (lt (minDistance (findWithDescriptors collection) probe) threshold = false ->
   Server.recognize collection (body [probe]) = Json200 [] /\
   Optimized.recognize collection (body [probe]) = Json200 []) /\
  length (Server.matchAll students probes) =
    length (filter (fun p => lt (minDistance students p) threshold) probes) /\
  length (Optimized.matchAll students probes) =
    length (filter (fun p => lt (minDistance students p) threshold) probes).
Proof.
  assert (Hserver :
            (exists m, Server.bestMatch (Server.scan students probe) = Some m)
            <-> lt (minDistance students probe) threshold = true).
  { now rewrite scan_match_iff, minDistance_below_iff. }
  split; [exact Hserver | ].
  split.
  { rewrite <- Hserver, Optimized_bestMatch.
    destruct (Server.bestMatch (Server.scan students probe)) as [m|];
      cbn [option_map]; split; intros [x Hx]; try discriminate; eauto. }
  split.
  { intros Heq. rewrite Optimized_bestMatch.
    destruct (Server.bestMatch (Server.scan students probe)) as [m|] eqn:Hm;
      [ | now split].
    assert (Hlt : lt (minDistance students probe) threshold = true)
      by (apply Hserver; eauto).
    rewrite Heq, lt_irrefl in Hlt. discriminate. }
  split.
  { intros Hlt. destruct (step_below _ _ Hlt) as (m & _ & Hd & Hs & Ho).
    exists m. auto. }
  split.
  { intros Hlt. destruct (step_not_below _ _ Hlt) as (_ & Hs & Ho). auto. }
  split.
  { intros Hlt. destruct (step_below _ _ Hlt) as (m & Hm & Hd & _).
    exists m. split; [exact Hd | ]. now apply recognize_one. }
  split.
  { intros Hlt. destruct (step_not_below _ _ Hlt) as (Hm & _).
    now apply recognize_none. }
  split.
  - rewrite Server_matchAll_entries. apply entries_length_below.
  - rewrite Optimized_matchAll_entries, Optimized_entries_length.
    apply entries_length_below.
Qed.

(** C4 on both sides of the boundary: the route answers a probe at distance
    0.6 exactly of the only stored descriptor with no match, and the stored
    descriptor itself with one match, at distance 0. *)
Lemma C4_witness :
  minDistance [asha] [0.6; 0]%R = threshold /\
  (Server.bestMatch (Server.scan [asha] [0.6; 0]%R) = None /\
   Optimized.bestMatch (Optimized.scan [asha] [0.6; 0]%R) = None) /\
  (Server.recognize [asha] (body [[0.6; 0]%R]) = Json200 [] /\
   Optimized.recognize [asha] (body [[0.6; 0]%R]) = Json200 []) /\
  lt (minDistance (findWithDescriptors [asha]) [0; 0]%R) threshold = true /\
  exists m,
    Server.distance m = minDistance (findWithDescriptors [asha]) [0; 0]%R /\
    Server.recognize [asha] (body [[0; 0]%R]) = Json200 [m] /\
    Optimized.recognize [asha] (body [[0; 0]%R]) = Json200 [format m].
Proof.
  assert (H : minDistance [asha] [0.6; 0]%R = threshold).
  { unfold minDistance.
    cbn [pairs flat_map asha faceDescriptors map app fold_left snd].
    now rewrite distance_boundary. }
  assert (Hfar : lt (minDistance (findWithDescriptors [asha]) [0.6; 0]%R)
                    threshold = false).
  { change (findWithDescriptors [asha]) with [asha].
    rewrite H. apply lt_irrefl. }
  assert (Hnear : lt (minDistance (findWithDescriptors [asha]) [0; 0]%R)
                     threshold = true).
  { change (findWithDescriptors [asha]) with [asha]. unfold minDistance.
    cbn [pairs flat_map asha faceDescriptors map app fold_left snd].
    replace (Server.euclideanDistance [0; 0]%R [0; 0]%R) with (Num 0)
      by (symmetry; distance_is).
    cbn [lt threshold]. apply Rltb_true. lra. }
  split; [exact H | ].
  split.
  { exact (proj1 (proj2 (proj2 (C4_match_iff_minimum_below_threshold
                                  [asha] [asha] [] [0.6; 0]%R))) H). }
  split.
  { exact (proj1 (proj2 (proj2 (proj2 (proj2 (proj2 (proj2
             (C4_match_iff_minimum_below_threshold
                [asha] [asha] [] [0.6; 0]%R))))))) Hfar). }
  split; [exact Hnear | ].
  exact (proj1 (proj2 (proj2 (proj2 (proj2 (proj2
           (C4_match_iff_minimum_below_threshold
              [asha] [asha] [] [0; 0]%R)))))) Hnear).
Defined.

(** C5 (as stated, refuted): for a winning distance of 0.0004 the optimized
    variant answers the strings "1.00" and "0.000", not the confidence 0.9996
    and the raw distance 0.0004 that server.js answers. *)
Lemma C5_counterexample :
  Optimized.recognize [asha] (body [[0.0004; 0]%R]) =
    Json200 [hitText asha "1.00" "0.000"] /\
  Server.recognize [asha] (body [[0.0004; 0]%R]) =
    Json200 [hit asha 0.9996 0.0004].
Proof.
  split.
  - rewrite Optimized_recognize_entries.
    change (findWithDescriptors [asha]) with [asha].
    cbn [flat_map]. rewrite asha_close.
    cbn [Server.bestMatch option_map entries app].
    rewrite (format_hit asha 0.9996 0.0004 100 0);
      [reflexivity | lra .. | simpl; lra | simpl; lra].
  - rewrite recognize_entries. change (findWithDescriptors [asha]) with [asha].
    cbn [flat_map]. now rewrite asha_close.
Qed.

(** C5 (amended): in server.js the match carries the winning distance [d]
    itself, a number with [0 <= d < 0.6], and the confidence [1 - d], with no
    clamping; in the optimized variant it carries the strings
    [d.toFixed(3)] and [(1 - d).toFixed(2)] of the same winning distance. *)
Theorem C5_confidence_is_one_minus_distance
        (students : list Student) (probe : Descriptor) :
  (forall m,
      Server.bestMatch (Server.scan students probe) = Some m ->
      Server.distance m = minDistance students probe /\
      Server.confidence m = sub (Num 1) (Server.distance m) /\
      exists d, (0 <= d < 0.6)%R /\
                Server.distance m = Num d /\
                Server.confidence m = Num (1 - d)) /\
  (forall m,
      Optimized.bestMatch (Optimized.scan students probe) = Some m ->
      Optimized.distance m = toFixed (minDistance students probe) 3 /\
      Optimized.confidence m =
        toFixed (sub (Num 1) (minDistance students probe)) 2).
Proof.
  assert (Hserver : forall m,
             Server.bestMatch (Server.scan students probe) = Some m ->
             Server.distance m = minDistance students probe /\
             Server.confidence m = sub (Num 1) (Server.distance m) /\
             exists d, (0 <= d < 0.6)%R /\
                       Server.distance m = Num d /\
                       Server.confidence m = Num (1 - d)).
  { intros m Hm. split; [now apply scan_match_minDistance | ].
    destruct (scan_match_inv _ _ _ Hm)
      as (before & s & stored & after & _ & -> & Hlt & _).
    cbn [Server.distance Server.confidence]. split; trivial.
    destruct (euclideanDistance_range probe stored) as [Hnan | (r & Hr & Heq)].
    - rewrite Hnan in Hlt. discriminate.
    - rewrite Heq in *. exists r. cbn [lt threshold] in Hlt.
      apply Rltb_true in Hlt. repeat split; trivial; lra. }
  split; trivial.
  intros m' Hm'. rewrite Optimized_bestMatch in Hm'.
  destruct (Server.bestMatch (Server.scan students probe)) as [m|];
    [ | discriminate].
  injection Hm' as <-. destruct (Hserver m eq_refl) as (Hd & Hc & _).
  cbn [format Optimized.distance Optimized.confidence].
  now rewrite Hc, Hd.
Qed.

(** C5 on a probe at distance 0.0004 of the gallery. *)
Lemma C5_witness :
  Server.bestMatch (Server.scan [asha] [0.0004; 0]%R) =
    Some (hit asha 0.9996 0.0004) /\
  Server.distance (hit asha 0.9996 0.0004) =
    minDistance [asha] [0.0004; 0]%R /\
  Server.confidence (hit asha 0.9996 0.0004) =
    sub (Num 1) (Server.distance (hit asha 0.9996 0.0004)) /\
  exists d, (0 <= d < 0.6)%R /\
            Server.distance (hit asha 0.9996 0.0004) = Num d /\
            Server.confidence (hit asha 0.9996 0.0004) = Num (1 - d).
Proof.
  assert (H : Server.bestMatch (Server.scan [asha] [0.0004; 0]%R) =
              Some (hit asha 0.9996 0.0004)) by (now rewrite asha_close).
  split; [exact H | ].
  exact (proj1 (C5_confidence_is_one_minus_distance [asha] [0.0004; 0]%R)
               (hit asha 0.9996 0.0004) H).
Defined.

(** C6: on arrays of equal length, [euclideanDistance] is the Euclidean
    distance sqrt(Σ (a_i − b_i)^2), in both files, with no normalisation and
    no weights. *)
Theorem C6_euclidean_distance (a b : Descriptor) :
  length a = length b ->
  Server.euclideanDistance a b =
    Num (sqrt (fold_right Rplus 0%R
                 (map (fun p => (fst p - snd p) ^ 2)%R (combine a b)))) /\
  Optimized.euclideanDistance a b =
    Num (sqrt (fold_right Rplus 0%R
                 (map (fun p => (fst p - snd p) ^ 2)%R (combine a b)))).
Proof.
  intros Hlen. rewrite euclideanDistance_same.
  split; apply euclideanDistance_short; lia.
Qed.

(** C6 on the sides 3 and 4 of a right triangle. *)
Lemma C6_witness :
  length [3; 0]%R = length [0; 4]%R /\
  Server.euclideanDistance [3; 0]%R [0; 4]%R =
    Num (sqrt (fold_right Rplus 0%R
                 (map (fun p => (fst p - snd p) ^ 2)%R
                      (combine [3; 0]%R [0; 4]%R)))) /\
  Optimized.euclideanDistance [3; 0]%R [0; 4]%R =
    Num (sqrt (fold_right Rplus 0%R
                 (map (fun p => (fst p - snd p) ^ 2)%R
                      (combine [3; 0]%R [0; 4]%R)))).
Proof.
  split; [reflexivity | ].
  exact (C6_euclidean_distance [3; 0]%R [0; 4]%R eq_refl).
Defined.

(** C7: identities without descriptors take no part in the scan, and when no
    identity of the collection has a descriptor (an empty collection
    included) no probe has a match and the answer is the empty list, not an
    error. *)
Theorem C7_no_eligible_identity
        (collection : list Student) (probes : list Descriptor) :
  (forall probe,
      Server.scan collection probe =
        Server.scan
          (filter (fun s => negb (isEmpty (faceDescriptors s))) collection)
          probe /\
      Optimized.scan collection probe =
        Optimized.scan
          (filter (fun s => negb (isEmpty (faceDescriptors s))) collection)
          probe) /\
  (forall s, In s (findWithDescriptors collection) ->
             In s collection /\ faceDescriptors s <> []) /\
  ((forall s, In s collection -> faceDescriptors s = []) ->
   (forall probe,
       Server.bestMatch (Server.scan collection probe) = None /\
       Optimized.bestMatch (Optimized.scan collection probe) = None) /\
   Server.recognize collection (body probes) = Json200 [] /\
   Optimized.recognize collection (body probes) = Json200 []).
Proof.
  split; [ | split].
  - intros probe. now rewrite !scan_format, scan_skip_empty.
  - intros s [Hs Hhas]%findWithDescriptors_In. split; trivial.
    now apply hasDescriptors_true.
  - intros Hall.
    assert (Hscan : forall probe, Server.scan collection probe = Server.initial).
    { intros probe. now rewrite scan_pairs, pairs_no_descriptors. }
    split; [ | split].
    + intros probe. now rewrite Optimized_bestMatch, Hscan.
    + rewrite recognize_entries, findWithDescriptors_none by trivial. f_equal.
      induction probes as [|probe rest IH]; trivial.
    + rewrite Optimized_recognize_entries, findWithDescriptors_none by trivial.
      f_equal. induction probes as [|probe rest IH]; trivial.
Qed.

(** C7 on a collection whose only student has no descriptor yet. *)
Lemma C7_witness :
  (forall s, In s [mina] -> faceDescriptors s = []) /\
  (forall probe,
      Server.bestMatch (Server.scan [mina] probe) = None /\
      Optimized.bestMatch (Optimized.scan [mina] probe) = None) /\
  Server.recognize [mina] (body [[0; 0]%R]) = Json200 [] /\
  Optimized.recognize [mina] (body [[0; 0]%R]) = Json200 [].
Proof.
  assert (H : forall s, In s [mina] -> faceDescriptors s = [])
    by (intros s [<- | []]; reflexivity).
  split; [exact H | ].
  exact (proj2 (proj2 (C7_no_eligible_identity [mina] [[0; 0]%R])) H).
Defined.

(** C8: on descriptors of equal length the distance is symmetric, and the
    distance of a descriptor to itself is 0. *)
Theorem C8_distance_symmetric_and_zero (a b : Descriptor) :
  length a = length b ->
  Server.euclideanDistance a b = Server.euclideanDistance b a /\
  Server.euclideanDistance a a = Num 0 /\
  Optimized.euclideanDistance a b = Optimized.euclideanDistance b a /\
  Optimized.euclideanDistance a a = Num 0.
Proof.
  intros Hlen. rewrite !euclideanDistance_same.
  assert (Hsym : Server.euclideanDistance a b = Server.euclideanDistance b a).
  { rewrite !euclideanDistance_short by lia.
    unfold euclid. now rewrite sumSquares_sym. }
  assert (Hzero : Server.euclideanDistance a a = Num 0).
  { rewrite euclideanDistance_short by lia.
    unfold euclid. now rewrite sumSquares_refl, sqrt_0. }
  auto.
Qed.

(** C8 on two descriptors 5 apart. *)
Lemma C8_witness :
  length [3; 0]%R = length [0; 4]%R /\
  Server.euclideanDistance [3; 0]%R [0; 4]%R =
    Server.euclideanDistance [0; 4]%R [3; 0]%R /\
  Server.euclideanDistance [3; 0]%R [3; 0]%R = Num 0 /\
  Optimized.euclideanDistance [3; 0]%R [0; 4]%R =
    Optimized.euclideanDistance [0; 4]%R [3; 0]%R /\
  Optimized.euclideanDistance [3; 0]%R [3; 0]%R = Num 0.
Proof.
  split; [reflexivity | ].
  exact (C8_distance_symmetric_and_zero [3; 0]%R [0; 4]%R eq_refl).
Defined.

(** C9: the matches of the batch [p1, p2] are the matches of [p1] alone
    followed by the matches of [p2] alone, against the same gallery. *)
Theorem C9_batch_independence (students : list Student) (p1 p2 : Descriptor) :
  Server.matchAll students [p1; p2] =
    Server.matchAll students [p1] ++ Server.matchAll students [p2] /\
  Optimized.matchAll students [p1; p2] =
    Optimized.matchAll students [p1] ++ Optimized.matchAll students [p2].
Proof.
  rewrite !Server_matchAll_entries, !Optimized_matchAll_entries.
  cbn [flat_map]. now rewrite !app_nil_r.
Qed.

(** C10: a probe strictly shorter than a stored descriptor is compared with
    its first [|probe|] components only, the rest of the stored descriptor
    being ignored; no error arises, and when that truncated distance is below
    the threshold the route answers the probe with a match, provided the
    query returns the student who holds the stored descriptor: none of the
    descriptors of that student is the empty array. *)
Theorem C10_short_probe_is_compared_on_its_indices
        (collection : list Student) (s : Student) (probe stored : Descriptor) :
  length probe < length stored ->
  Server.euclideanDistance probe stored =
    Num (euclid probe (firstn (length probe) stored)) /\
  Optimized.euclideanDistance probe stored =
    Num (euclid probe (firstn (length probe) stored)) /\
  (In s collection -> In stored (faceDescriptors s) ->
   (forall d, In d (faceDescriptors s) -> d <> []) ->
   (euclid probe (firstn (length probe) stored) < 0.6)%R ->
   (exists m, Server.recognize collection (body [probe]) = Json200 [m]) /\
   (exists m, Optimized.recognize collection (body [probe]) = Json200 [m])).
Proof.
  intros Hlen.
  assert (Hd : Server.euclideanDistance probe stored =
               Num (euclid probe (firstn (length probe) stored))).
  { rewrite euclideanDistance_short by lia.
    unfold euclid. now rewrite sumSquares_firstn. }
  rewrite euclideanDistance_same. split; [ | split]; trivial.
  intros Hs Hstored Hall Hbelow.
  assert (Hm : exists m,
             Server.bestMatch
               (Server.scan (findWithDescriptors collection) probe) = Some m).
  { apply scan_match_iff. exists (s, stored). split.
    - apply in_pairs; trivial. now apply findWithDescriptors_holds with stored.
    - cbn [snd]. rewrite Hd. cbn [lt threshold]. now apply Rltb_true. }
  destruct Hm as [m Hm]. destruct (recognize_one _ _ _ Hm) as [Hserver Hopt].
  split; eauto.
Qed.

(** C10 on a probe of one component against a stored descriptor of two. *)
Lemma C10_witness :
  length [0%R] < length [0; 0]%R /\
  Server.euclideanDistance [0%R] [0; 0]%R = Num (euclid [0%R] [0%R]) /\
  Optimized.euclideanDistance [0%R] [0; 0]%R = Num (euclid [0%R] [0%R]) /\
  (exists m, Server.recognize [asha] (body [[0%R]]) = Json200 [m]) /\
  (exists m, Optimized.recognize [asha] (body [[0%R]]) = Json200 [m]).
Proof.
  assert (Hlen : length [0%R] < length [0; 0]%R) by (simpl; lia).
  destruct (C10_short_probe_is_compared_on_its_indices
              [asha] asha [0%R] [0; 0]%R Hlen) as (Hs & Ho & Hm).
  split; [exact Hlen | split; [exact Hs | split; [exact Ho | ]]].
  apply Hm.
  - now left.
  - now left.
  - intros d [<- | []]. discriminate.
  - cbn [length firstn]. unfold euclid.
    replace (sumSquares [0%R] [0%R]) with 0%R by sum_squares.
    rewrite sqrt_0. lra.
Defined.

(** * Further properties of the matcher *)

Lemma euclideanDistance_not_below_zero (a b : Descriptor) :
  lt (Server.euclideanDistance a b) (Num 0) = false.
Proof.
  destruct (euclideanDistance_range a b) as [-> | (r & Hr & ->)]; trivial.
  cbn [lt]. now apply Rltb_false.
Qed.

(** X1: the distance is NaN exactly when the first array is the longer one;
    otherwise it is a number that is not negative. *)
Theorem X1_distance_is_NaN_or_not_negative (a b : Descriptor) :
  (Server.euclideanDistance a b = NaN <-> length b < length a) /\
  (Optimized.euclideanDistance a b = NaN <-> length b < length a) /\
  (length a <= length b ->
   exists r, (0 <= r)%R /\
             Server.euclideanDistance a b = Num r /\
             Optimized.euclideanDistance a b = Num r).
Proof.
  rewrite euclideanDistance_same.
  assert (Hnan : Server.euclideanDistance a b = NaN <-> length b < length a).
  { split.
    - intros Hd. destruct (le_lt_dec (length a) (length b)) as [Hle | Hgt];
        trivial.
      rewrite euclideanDistance_short in Hd by trivial. discriminate.
    - apply euclideanDistance_long. }
  split; [exact Hnan | split; [exact Hnan | ]].
  intros Hle. exists (euclid a b). split; [apply sqrt_pos | ].
  split; now apply euclideanDistance_short.
Qed.

Lemma X1_witness :
  length [3; 0]%R <= length [0; 4; 7]%R /\
  exists r, (0 <= r)%R /\
            Server.euclideanDistance [3; 0]%R [0; 4; 7]%R = Num r /\
            Optimized.euclideanDistance [3; 0]%R [0; 4; 7]%R = Num r.
Proof.
  assert (H : length [3; 0]%R <= length [0; 4; 7]%R) by (simpl; lia).
  split; [exact H | ].
  exact (proj2 (proj2 (X1_distance_is_NaN_or_not_negative
                         [3; 0]%R [0; 4; 7]%R)) H).
Defined.

Lemma in_pairs_inv (students : list Student) (p : Student * Descriptor) :
  In p (pairs students) ->
  In (fst p) students /\ In (snd p) (faceDescriptors (fst p)).
Proof.
  intros Hp. apply in_flat_map in Hp as (s & Hs & Hp).
  apply in_map_iff in Hp as (stored & <- & Hstored). now split.
Qed.

Lemma in_entries {M : Type} (m : M) (o : option M) :
  In m (entries o) -> o = Some m.
Proof.
  destruct o as [m'|]; cbn [entries].
  - intros [-> | []]. reflexivity.
  - intros [].
Qed.

Lemma in_Server_matchAll (students : list Student) (probes : list Descriptor)
      (m : Server.Match) :
  In m (Server.matchAll students probes) <->
  exists probe, In probe probes /\
                Server.bestMatch (Server.scan students probe) = Some m.
Proof.
  rewrite Server_matchAll_entries, in_flat_map. split.
  - intros (probe & Hp & Hm). exists probe. split; trivial.
    now apply in_entries.
  - intros (probe & Hp & Hm). exists probe. split; trivial.
    rewrite Hm. now left.
Qed.

Lemma in_Optimized_matchAll (students : list Student)
      (probes : list Descriptor) (m : Optimized.Match) :
  In m (Optimized.matchAll students probes) <->
  exists probe m0, In probe probes /\
                   Server.bestMatch (Server.scan students probe) = Some m0 /\
                   m = format m0.
Proof.
  rewrite Optimized_matchAll_entries, in_flat_map. split.
  - intros (probe & Hp & Hm). apply in_entries in Hm.
    rewrite Optimized_bestMatch in Hm.
    destruct (Server.bestMatch (Server.scan students probe)) as [m0|] eqn:H0;
      [ | discriminate].
    injection Hm as <-. now exists probe, m0.
  - intros (probe & m0 & Hp & Hm & ->). exists probe. split; trivial.
    rewrite Optimized_bestMatch, Hm. now left.
Qed.

Lemma scan_names_student (collection : list Student) (probe : Descriptor)
      (m : Server.Match) :
  Server.bestMatch (Server.scan (findWithDescriptors collection) probe)
    = Some m ->
  exists s, In s collection /\ faceDescriptors s <> [] /\
            Server.student m = infoOf s.
Proof.
  intros Hm.
  destruct (scan_match_inv _ _ _ Hm)
    as (before & s & stored & after & Hsplit & -> & _).
  assert (Hin : In (s, stored) (pairs (findWithDescriptors collection))).
  { rewrite Hsplit. apply in_or_app. right. now left. }
  apply in_pairs_inv in Hin as [Hs Hstored]. cbn [fst snd] in *.
  apply findWithDescriptors_In in Hs as [Hs Hhas].
  exists s. repeat split; trivial.
  intros Hnil. now rewrite Hnil in Hstored.
Qed.

Lemma matchAll_names_student (collection : list Student)
      (probes : list Descriptor) :
  (forall m,
      In m (Server.matchAll (findWithDescriptors collection) probes) ->
      exists s, In s collection /\ faceDescriptors s <> [] /\
                Server.student m = infoOf s) /\
  (forall m,
      In m (Optimized.matchAll (findWithDescriptors collection) probes) ->
      exists s, In s collection /\ faceDescriptors s <> [] /\
                Optimized.student m = infoOf s).
Proof.
  split.
  - intros m Hm. apply in_Server_matchAll in Hm as (probe & _ & Hm).
    now apply (scan_names_student collection probe).
  - intros m Hm. apply in_Optimized_matchAll in Hm as (probe & m0 & _ & Hm & ->).
    apply (scan_names_student collection probe m0 Hm).
Qed.

(** X3: every match the route answers carries the identity of a student of
    the collection who has at least one stored descriptor. *)
Theorem X3_matches_name_students_of_the_collection
        (collection : list Student) (probes : list Descriptor) :
  (forall m,
      In m (Server.matchAll (findWithDescriptors collection) probes) ->
      exists s, In s collection /\ faceDescriptors s <> [] /\
                Server.student m = infoOf s) /\
  (forall m,
      In m (Optimized.matchAll (findWithDescriptors collection) probes) ->
      exists s, In s collection /\ faceDescriptors s <> [] /\
                Optimized.student m = infoOf s).
Proof. apply matchAll_names_student. Qed.

Lemma X3_witness :
  In (hit asha 1 0) (Server.matchAll (findWithDescriptors [asha]) [[0; 0]%R]) /\
  exists s, In s [asha] /\ faceDescriptors s <> [] /\
            Server.student (hit asha 1 0) = infoOf s.
Proof.
  assert (H : In (hit asha 1 0)
                 (Server.matchAll (findWithDescriptors [asha]) [[0; 0]%R])).
  { apply in_Server_matchAll. exists [0; 0]%R. split; [now left | ].
    change (findWithDescriptors [asha]) with [asha]. now rewrite asha_same. }
  split; [exact H | ].
  exact (proj1 (X3_matches_name_students_of_the_collection [asha] [[0; 0]%R])
               (hit asha 1 0) H).
Defined.

Lemma visit_final (probe : Descriptor) (s : Student) (best : Server.Best)
      (stored : Descriptor) :
  Server.bestDistance best = Num 0 ->
  Server.visit probe s best stored = best.
Proof.
  intros Hbest. apply visit_kept. rewrite Hbest.
  apply euclideanDistance_not_below_zero.
Qed.

Lemma scan_final (probe : Descriptor) (l : list (Student * Descriptor))
      (best : Server.Best) :
  Server.bestDistance best = Num 0 ->
  fold_left (visitPair probe) l best = best.
Proof.
  intros Hbest. induction l as [|p l IH]; trivial.
  cbn [fold_left]. unfold visitPair at 2. now rewrite visit_final.
Qed.

(** X4: an empty probe is at distance 0 from every stored descriptor: it is
    matched, with confidence 1, to the first student the query returns, who
    is the first student of the collection with a descriptor and without an
    empty one. *)
Theorem X4_empty_probe_matches_the_first_student
        (collection : list Student) (s : Student) (rest : list Student) :
  findWithDescriptors collection = s :: rest ->
  Server.recognize collection (body [[]]) = Json200 [hit s 1 0] /\
  Optimized.recognize collection (body [[]]) =
    Json200 [hitText s "1.00" "0.000"].
Proof.
  intros Hfind.
  assert (Hscan : Server.bestMatch (Server.scan (s :: rest) []) =
                  Some (hit s 1 0)).
  { assert (Hs : hasDescriptors s = true).
    { assert (Hin : In s (findWithDescriptors collection))
        by (rewrite Hfind; now left).
      now apply findWithDescriptors_In in Hin. }
    apply hasDescriptors_true in Hs as [Hs _].
    destruct (faceDescriptors s) as [|stored others] eqn:Hdesc;
      [now destruct Hs | ].
    rewrite scan_pairs. cbn [pairs flat_map]. rewrite Hdesc.
    cbn [map app fold_left]. unfold visitPair at 2. cbn [fst snd].
    rewrite (visit_hit [] s Server.initial stored 0);
      [ | apply euclideanDistance_eval; [simpl; lia | lra | cbv; lra]
        | lra | reflexivity].
    rewrite scan_final by reflexivity.
    cbn [Server.bestMatch]. unfold hit. do 3 f_equal. lra. }
  rewrite recognize_entries, Optimized_recognize_entries, Hfind.
  cbn [flat_map]. rewrite Hscan. cbn [option_map entries app].
  split; trivial.
  rewrite (format_hit s 1 0 100 0);
    [reflexivity | lra .. | simpl; lra | simpl; lra].
Qed.

(** X4 behind a student without a descriptor and a student who holds an
    empty one: neither is returned by the query. *)
Lemma X4_witness :
  findWithDescriptors [mina; tara; asha; ravi] = asha :: [ravi] /\
  Server.recognize [mina; tara; asha; ravi] (body [[]]) =
    Json200 [hit asha 1 0] /\
  Optimized.recognize [mina; tara; asha; ravi] (body [[]]) =
    Json200 [hitText asha "1.00" "0.000"].
Proof.
  split; [reflexivity | ].
  exact (X4_empty_probe_matches_the_first_student
           [mina; tara; asha; ravi] asha [ravi] eq_refl).
Defined.

Lemma pairs_app (l l' : list Student) : pairs (l ++ l') = pairs l ++ pairs l'.
Proof. unfold pairs. apply flat_map_app. Qed.

Lemma scan_kept (probe : Descriptor) (l : list (Student * Descriptor))
      (best : Server.Best) :
  (forall p, In p l ->
             lt (Server.euclideanDistance probe (snd p))
                (Server.bestDistance best) = false) ->
  fold_left (visitPair probe) l best = best.
Proof.
  induction l as [|p l IH]; intros Hall; trivial.
  cbn [fold_left]. unfold visitPair at 2.
  rewrite visit_kept by (apply Hall; now left).
  apply IH. intros q Hq. apply Hall. now right.
Qed.

Lemma scan_match_won (students : list Student) (probe : Descriptor)
      (m : Server.Match) :
  Server.bestMatch (Server.scan students probe) = Some m ->
  Server.bestDistance (Server.scan students probe) = Server.distance m.
Proof.
  intros Hm. destruct (tracked_scan students probe) as [ | ]; [discriminate | ].
  cbn [won Server.bestMatch Server.bestDistance] in *.
  now injection Hm as <-.
Qed.

(** X5: enrolling further students after the present ones never loses a
    match: a probe that had one still has one, at a distance that is not
    larger, and it keeps the very same match unless a descriptor of the new
    students is strictly closer. *)
Theorem X5_more_students_never_lose_a_match
        (students more : list Student) (probe : Descriptor) (m : Server.Match) :
  Server.bestMatch (Server.scan students probe) = Some m ->
  (exists m',
      Server.bestMatch (Server.scan (students ++ more) probe) = Some m' /\
      Optimized.bestMatch (Optimized.scan (students ++ more) probe) =
        Some (format m') /\
      lt (Server.distance m) (Server.distance m') = false) /\
  ((forall s stored,
       In s more -> In stored (faceDescriptors s) ->
       lt (Server.euclideanDistance probe stored) (Server.distance m) = false) ->
   Server.bestMatch (Server.scan (students ++ more) probe) = Some m /\
   Optimized.bestMatch (Optimized.scan (students ++ more) probe) =
     Some (format m)).
Proof.
  intros Hm. split.
  - assert (Hex : exists m', Server.bestMatch
                               (Server.scan (students ++ more) probe) = Some m').
    { apply scan_match_iff.
      destruct (proj1 (scan_match_iff students probe) (ex_intro _ m Hm))
        as (p & Hp & Hlt).
      exists p. split; trivial. rewrite pairs_app. apply in_or_app. now left. }
    destruct Hex as [m' Hm']. exists m'. split; [exact Hm' | split].
    + now rewrite Optimized_bestMatch, Hm'.
    + rewrite (scan_match_minDistance _ _ _ Hm').
      destruct (scan_match_inv _ _ _ Hm)
        as (before & s & stored & after & Hsplit & -> & _).
      cbn [Server.distance].
      apply (minimal_below _ _ _ (minDistance_minimal (students ++ more) probe)
                           (s, stored)).
      rewrite pairs_app, Hsplit. apply in_or_app. left.
      apply in_or_app. right. now left.
  - intros Hmore.
    assert (Hscan : Server.scan (students ++ more) probe =
                    Server.scan students probe).
    { rewrite !scan_pairs, pairs_app, fold_left_app, <- scan_pairs.
      apply scan_kept. intros p Hp. rewrite (scan_match_won _ _ _ Hm).
      apply in_pairs_inv in Hp as [Hs Hstored]. now apply (Hmore (fst p)). }
    now rewrite Optimized_bestMatch, Hscan, Hm.
Qed.

Lemma X5_witness :
  Server.bestMatch (Server.scan [asha] [0; 0.15]%R) = Some (hit asha 0.85 0.15) /\
  Server.bestMatch (Server.scan ([asha] ++ [ravi]) [0; 0.15]%R) =
    Some (hit asha 0.85 0.15) /\
  Optimized.bestMatch (Optimized.scan ([asha] ++ [ravi]) [0; 0.15]%R) =
    Some (format (hit asha 0.85 0.15)).
Proof.
  assert (Hd : Server.euclideanDistance [0; 0.15]%R [0; 0]%R = Num 0.15)
    by distance_is.
  assert (H : Server.bestMatch (Server.scan [asha] [0; 0.15]%R) =
              Some (hit asha 0.85 0.15)).
  { rewrite (scan_single asha [0; 0]%R) by reflexivity.
    rewrite (visit_hit _ _ _ _ 0.15); [ | exact Hd | lra | reflexivity].
    cbn [Server.bestMatch]. unfold hit. do 3 f_equal. lra. }
  split; [exact H | ].
  apply (proj2 (X5_more_students_never_lose_a_match
                  [asha] [ravi] [0; 0.15]%R (hit asha 0.85 0.15) H)).
  intros s stored [<- | []] [<- | []].
  replace (Server.euclideanDistance [0; 0.15]%R [0; 0.3]%R) with (Num 0.15)
    by (symmetry; distance_is).
  apply lt_irrefl.
Defined.

Lemma minimal_unique (probe : Descriptor)
      (seen seen' : list (Student * Descriptor)) (d d' : number) :
  (forall p, In p seen <-> In p seen') ->
  Minimal probe seen d -> Minimal probe seen' d' -> d = d'.
Proof.
  intros Hsame [Hnum Hbelow Hatt] [Hnum' Hbelow' Hatt'].
  apply lt_antisym; trivial.
  - destruct Hatt as [-> | (p & Hp & ->)].
    + now destruct d'.
    + apply Hbelow', Hsame, Hp.
  - destruct Hatt' as [-> | (p & Hp & ->)].
    + now destruct d.
    + apply Hbelow, Hsame, Hp.
Qed.

Lemma pairs_same_members (students students' : list Student) :
  (forall s, In s students <-> In s students') ->
  forall p, In p (pairs students) <-> In p (pairs students').
Proof.
  intros Hsame p. unfold pairs. rewrite !in_flat_map.
  split; intros (s & Hs & Hp); exists s; split; trivial; now apply Hsame.
Qed.

(** X6: the order of the gallery decides only which of several equally close
    students is named: two galleries with the same students give a probe a
    match in the same cases, at the same distance and confidence. *)
Theorem X6_distance_does_not_depend_on_gallery_order
        (students students' : list Student) (probe : Descriptor) :
  (forall s, In s students <-> In s students') ->
  minDistance students probe = minDistance students' probe /\
  (forall m,
      Server.bestMatch (Server.scan students probe) = Some m ->
      exists m',
        Server.bestMatch (Server.scan students' probe) = Some m' /\
        Server.distance m' = Server.distance m /\
        Server.confidence m' = Server.confidence m) /\
  (forall m,
      Optimized.bestMatch (Optimized.scan students probe) = Some m ->
      exists m',
        Optimized.bestMatch (Optimized.scan students' probe) = Some m' /\
        Optimized.distance m' = Optimized.distance m /\
        Optimized.confidence m' = Optimized.confidence m).
Proof.
  intros Hsame.
  assert (Hmin : minDistance students probe = minDistance students' probe).
  { apply (minimal_unique probe (pairs students) (pairs students')).
    - now apply pairs_same_members.
    - apply minDistance_minimal.
    - apply minDistance_minimal. }
  assert (Hserver : forall m,
             Server.bestMatch (Server.scan students probe) = Some m ->
             exists m',
               Server.bestMatch (Server.scan students' probe) = Some m' /\
               Server.distance m' = Server.distance m /\
               Server.confidence m' = Server.confidence m).
  { intros m Hm.
    assert (Hex : exists m', Server.bestMatch (Server.scan students' probe)
                             = Some m').
    { apply scan_match_iff.
      destruct (proj1 (scan_match_iff students probe) (ex_intro _ m Hm))
        as (p & Hp & Hlt).
      exists p. split; trivial. now apply (pairs_same_members _ _ Hsame). }
    destruct Hex as [m' Hm']. exists m'. split; [exact Hm' | ].
    assert (Hd : Server.distance m' = Server.distance m).
    { now rewrite (scan_match_minDistance _ _ _ Hm'),
        (scan_match_minDistance _ _ _ Hm). }
    split; [exact Hd | ].
    destruct (scan_match_inv _ _ _ Hm) as (? & ? & ? & ? & _ & -> & _).
    destruct (scan_match_inv _ _ _ Hm') as (? & ? & ? & ? & _ & -> & _).
    cbn [Server.distance Server.confidence] in *. now rewrite Hd. }
  split; [exact Hmin | split; [exact Hserver | ]].
  intros m Hm. rewrite Optimized_bestMatch in Hm.
  destruct (Server.bestMatch (Server.scan students probe)) as [m0|] eqn:H0;
    [ | discriminate].
  injection Hm as <-. destruct (Hserver m0 eq_refl) as (m' & Hm' & Hd & Hc).
  exists (format m'). rewrite Optimized_bestMatch, Hm'.
  cbn [option_map format Optimized.distance Optimized.confidence].
  now rewrite Hd, Hc.
Qed.

Lemma X6_witness :
  (forall s, In s [asha; ravi] <-> In s [ravi; asha]) /\
  minDistance [asha; ravi] [0; 0.15]%R = minDistance [ravi; asha] [0; 0.15]%R.
Proof.
  assert (H : forall s, In s [asha; ravi] <-> In s [ravi; asha]).
  { intros s. simpl. tauto. }
  split; [exact H | ].
  exact (proj1 (X6_distance_does_not_depend_on_gallery_order
                  [asha; ravi] [ravi; asha] [0; 0.15]%R H)).
Defined.

Lemma toFixed_unit_Int_part (r : R) (f : nat) :
  (0 <= r <= 1)%R ->
  toFixed (Num r) f = Text (placePoint (Int_part (r * 10 ^ f + 1 / 2)) f).
Proof.
  intros Hr. apply toFixed_unit; trivial.
  destruct (base_Int_part (r * 10 ^ f + 1 / 2)). lra.
Qed.

Lemma scan_match_number (students : list Student) (probe : Descriptor)
      (m : Server.Match) :
  Server.bestMatch (Server.scan students probe) = Some m ->
  exists d, (0 <= d < 0.6)%R /\
            Server.distance m = Num d /\ Server.confidence m = Num (1 - d).
Proof.
  intros Hm. destruct (scan_match_inv _ _ _ Hm)
    as (before & s & stored & after & _ & -> & Hlt & _).
  cbn [Server.distance Server.confidence].
  destruct (euclideanDistance_range probe stored) as [Hnan | (r & Hr & Heq)].
  - rewrite Hnan in Hlt. discriminate.
  - rewrite Heq in *. exists r. cbn [lt threshold] in Hlt.
    apply Rltb_true in Hlt. repeat split; trivial; lra.
Qed.

(** X7: the strings of the optimized variant stay in range: the confidence
    is the two-decimal form of an integer number of hundredths between 40 and
    100 ("0.40" to "1.00"), the distance the three-decimal form of a number
    of thousandths between 0 and 600 ("0.000" to "0.600"); never "NaN",
    never an exponent. *)
Theorem X7_optimized_figures_stay_in_range
        (students : list Student) (probes : list Descriptor)
        (m : Optimized.Match) :
  In m (Optimized.matchAll students probes) ->
  exists n k : Z,
    (40 <= n <= 100)%Z /\ (0 <= k <= 600)%Z /\
    Optimized.confidence m = Text (placePoint n 2) /\
    Optimized.distance m = Text (placePoint k 3).
Proof.
  intros Hm. apply in_Optimized_matchAll in Hm as (probe & m0 & _ & Hm & ->).
  destruct (scan_match_number _ _ _ Hm) as (d & Hd & Hdist & Hconf).
  exists (Int_part ((1 - d) * 10 ^ 2 + 1 / 2)), (Int_part (d * 10 ^ 3 + 1 / 2)).
  cbn [format Optimized.confidence Optimized.distance].
  rewrite Hdist, Hconf, !toFixed_unit_Int_part by lra.
  destruct (base_Int_part ((1 - d) * 10 ^ 2 + 1 / 2)) as [Hn1 Hn2].
  destruct (base_Int_part (d * 10 ^ 3 + 1 / 2)) as [Hk1 Hk2].
  set (n := Int_part ((1 - d) * 10 ^ 2 + 1 / 2)) in *.
  set (k := Int_part (d * 10 ^ 3 + 1 / 2)) in *.
  cbn [pow] in Hn1, Hn2, Hk1, Hk2.
  assert (39 < n)%Z by (apply lt_IZR; lra).
  assert (n < 101)%Z by (apply lt_IZR; lra).
  assert (-1 < k)%Z by (apply lt_IZR; lra).
  assert (k < 601)%Z by (apply lt_IZR; lra).
  repeat split; trivial; lia.
Qed.

Lemma X7_witness :
  In (hitText asha "1.00" "0.000")
     (Optimized.matchAll [asha] [[0; 0]%R]) /\
  exists n k : Z,
    (40 <= n <= 100)%Z /\ (0 <= k <= 600)%Z /\
    Optimized.confidence (hitText asha "1.00" "0.000") = Text (placePoint n 2) /\
    Optimized.distance (hitText asha "1.00" "0.000") = Text (placePoint k 3).
Proof.
  assert (H : In (hitText asha "1.00" "0.000")
                 (Optimized.matchAll [asha] [[0; 0]%R])).
  { apply in_Optimized_matchAll. exists [0; 0]%R, (hit asha 1 0).
    split; [now left | split; [now rewrite asha_same | ]].
    rewrite (format_hit asha 1 0 100 0);
      [reflexivity | lra .. | simpl; lra | simpl; lra]. }
  split; [exact H | ].
  exact (X7_optimized_figures_stay_in_range [asha] [[0; 0]%R] _ H).
Defined.

(** * The middleware *)

Lemma split_not_nil (sep : ascii) (s : string) : JSString.split sep s <> [].
Proof.
  induction s as [|c s IH]; cbn [JSString.split]; [discriminate | ].
  destruct (Ascii.eqb c sep); [discriminate | ].
  destruct (JSString.split sep s); discriminate.
Qed.

Lemma split_without_separator (sep : ascii) (s : string) :
  JSString.count sep s = 0 -> JSString.split sep s = [s].
Proof.
  induction s as [|c s IH]; cbn [JSString.split JSString.count]; trivial.
  destruct (Ascii.eqb c sep); [discriminate | ].
  intros Hs. now rewrite IH.
Qed.

Lemma split_at_separator (sep : ascii) (a b : string) :
  JSString.count sep a = 0 ->
  JSString.split sep (a ++ String sep b) = a :: JSString.split sep b.
Proof.
  induction a as [|c a IH]; cbn [JSString.split JSString.count append].
  - intros _. now rewrite Ascii.eqb_refl.
  - destruct (Ascii.eqb c sep); [discriminate | ].
    intros Ha. now rewrite IH.
Qed.

Lemma tokenOf_second_piece (scheme remainder token : string)
      (pieces : list string) :
  JSString.count " " scheme = 0 ->
  JSString.split " " remainder = token :: pieces ->
  Auth.tokenOf (Some (scheme ++ String " " remainder)%string) = Some token.
Proof.
  intros Hscheme Htoken. unfold Auth.tokenOf.
  destruct (scheme ++ String " " remainder)%string eqn:Hh.
  - destruct scheme; discriminate.
  - rewrite <- Hh, split_at_separator, Htoken by trivial. reflexivity.
Qed.

Lemma tokenOf_without_space (h : string) :
  JSString.count " " h = 0 ->
  Auth.tokenOf (Some h) = None \/ Auth.tokenOf (Some h) = Some EmptyString.
Proof.
  intros Hh. unfold Auth.tokenOf. destruct h as [|c h]; [now right | left].
  now rewrite split_without_separator.
Qed.

(** X8: a request without an Authorization header, or whose header holds no
    space, or holds nothing between its first space and the next, is answered
    401 "Access denied" by the route, in both files, whatever jwt.verify
    would say and whatever the body holds. *)
Theorem X8_no_token_is_answered_401
        (U : Type) (verify : string -> string -> option U)
        (JWT_SECRET : option string)
        (collection : list Student) (b : Body) (h rest : string) :
  JSString.count " " h = 0 ->
  (forall authHeader,
      In authHeader [None; Some h; Some (h ++ " ")%string;
                     Some (h ++ "  " ++ rest)%string] ->
      ServerApp.recognizeRoute verify authHeader collection b =
        Auth.Stopped 401 "Access denied" /\
      OptimizedApp.recognizeRoute verify JWT_SECRET authHeader collection b =
        Auth.Stopped 401 "Access denied").
Proof.
  intros Hh authHeader Hin.
  assert (Htoken : Auth.tokenOf authHeader = None \/
                   Auth.tokenOf authHeader = Some EmptyString).
  { destruct Hin as [<- | [<- | [<- | [<- | []]]]].
    - now left.
    - now apply tokenOf_without_space.
    - right. now apply (tokenOf_second_piece h EmptyString EmptyString []).
    - right.
      apply (tokenOf_second_piece h (String " " rest) EmptyString
                                  (JSString.split " " rest)); trivial. }
  unfold ServerApp.recognizeRoute, OptimizedApp.recognizeRoute,
    ServerApp.authenticateToken, OptimizedApp.authenticateToken,
    Auth.authenticate.
  destruct Htoken as [-> | ->]; now split.
Qed.

Lemma X8_witness :
  JSString.count " " "Bearer" = 0 /\
  ServerApp.recognizeRoute (fun _ _ => Some tt) (Some "Bearer"%string) [asha]
                           (body [[0; 0]%R]) =
    Auth.Stopped 401 "Access denied".
Proof.
  split; [reflexivity | ].
  apply (X8_no_token_is_answered_401
           unit (fun _ _ => Some tt) None [asha] (body [[0; 0]%R])
           "Bearer" "" eq_refl (Some "Bearer"%string)).
  right. now left.
Defined.

(** X9: the middleware reads the second space-separated piece of the header
    and nothing else: whatever the scheme word before the first space and
    whatever follows a second space, a non-empty piece [token] is handed to
    jwt.verify with the secret of the file; the route answers 403 "Invalid
    token" when verification fails and what the matcher answers when it
    succeeds. *)
Theorem X9_only_the_second_piece_of_the_header_counts
        (U : Type) (verify : string -> string -> option U)
        (JWT_SECRET : option string)
        (collection : list Student) (b : Body)
        (scheme token rest : string) :
  JSString.count " " scheme = 0 ->
  JSString.count " " token = 0 ->
  token <> EmptyString ->
  forall authHeader,
    In authHeader [Some (scheme ++ " " ++ token)%string;
                   Some (scheme ++ " " ++ token ++ " " ++ rest)%string] ->
    ServerApp.recognizeRoute verify authHeader collection b =
      match verify token "your-secret-key"%string with
      | None => Auth.Stopped 403 "Invalid token"
      | Some _ => Auth.Handled (Server.recognize collection b)
      end /\
    OptimizedApp.recognizeRoute verify JWT_SECRET authHeader collection b =
      match verify token (OptimizedApp.secret JWT_SECRET) with
      | None => Auth.Stopped 403 "Invalid token"
      | Some _ => Auth.Handled (Optimized.recognize collection b)
      end.
Proof.
  intros Hscheme Htoken Hne authHeader Hin.
  assert (Hsecond : Auth.tokenOf authHeader = Some token).
  { destruct Hin as [<- | [<- | []]].
    - apply (tokenOf_second_piece scheme token token []); trivial.
      now apply split_without_separator.
    - apply (tokenOf_second_piece scheme (token ++ String " " rest) token
                                  (JSString.split " " rest)); trivial.
      now apply split_at_separator. }
  unfold ServerApp.recognizeRoute, OptimizedApp.recognizeRoute,
    ServerApp.authenticateToken, OptimizedApp.authenticateToken,
    Auth.authenticate.
  rewrite Hsecond. destruct token as [|c token]; [now elim Hne | ].
  split.
  - now destruct (verify (String c token) "your-secret-key"%string).
  - now destruct (verify (String c token) (OptimizedApp.secret JWT_SECRET)).
Qed.

Lemma X9_witness :
  JSString.count " " "Basic" = 0 /\
  JSString.count " " "abc" = 0 /\
  "abc"%string <> EmptyString /\
  ServerApp.recognizeRoute (fun token _ => if (token =? "abc")%string
                                           then Some tt else None)
                           (Some "Basic abc extra"%string) [asha]
                           (body [[0; 0]%R]) =
    Auth.Handled (Server.recognize [asha] (body [[0; 0]%R])).
Proof.
  assert (Hne : "abc"%string <> EmptyString) by discriminate.
  split; [reflexivity | split; [reflexivity | split; [exact Hne | ]]].
  apply (X9_only_the_second_piece_of_the_header_counts
           unit (fun token _ => if (token =? "abc")%string
                                then Some tt else None)
           None [asha] (body [[0; 0]%R]) "Basic" "abc" "extra"
           eq_refl eq_refl Hne (Some "Basic abc extra"%string)).
  right. now left.
Defined.

(** * The student routes *)

Lemma find_split {A : Type} (f : A -> bool) (l : list A) (x : A) :
  find f l = Some x ->
  exists before after,
    l = before ++ x :: after /\ f x = true /\
    forall y, In y before -> f y = false.
Proof.
  induction l as [|a l IH]; [discriminate | ].
  cbn [find]. destruct (f a) eqn:Hfa.
  - intros [= ->]. exists [], l. repeat split; trivial. intros y [].
  - intros Hfind. destruct (IH Hfind) as (before & after & -> & Hx & Hbefore).
    exists (a :: before), after. repeat split; trivial.
    intros y [<- | Hy]; auto.
Qed.

Lemma save_found (id : string) (db : list Students.Doc)
      (student student' : Students.Doc) :
  Students.findById id db = Some student ->
  _id (Students.fields student') = _id (Students.fields student) ->
  exists before after,
    db = before ++ student :: after /\
    Students.save student' db = before ++ student' :: after.
Proof.
  intros Hfind Hid. apply find_split in Hfind
    as (before & after & -> & Hx & Hbefore).
  apply String.eqb_eq in Hx. rewrite <- Hx in Hbefore.
  exists before, after. split; trivial.
  induction before as [|d before IH]; cbn [Students.save app].
  - now rewrite Hid, String.eqb_refl.
  - rewrite Hid, (Hbefore d) by now left.
    f_equal. apply IH. intros y Hy. apply Hbefore. now right.
Qed.

Lemma delete_found (id : string) (db : list Students.Doc)
      (student : Students.Doc) :
  Students.findById id db = Some student ->
  exists before after,
    db = before ++ student :: after /\
    Students.delete id db = before ++ after /\
    _id (Students.fields student) = id.
Proof.
  intros Hfind. apply find_split in Hfind
    as (before & after & -> & Hx & Hbefore).
  exists before, after. split; trivial. split.
  - induction before as [|d before IH]; cbn [Students.delete app].
    + now rewrite Hx.
    + rewrite (Hbefore d) by now left.
      f_equal. apply IH. intros y Hy. apply Hbefore. now right.
  - now apply String.eqb_eq.
Qed.

(** X10: the three routes that write students keep, in every document, one
    stored descriptor for each reference photo flagged [hasDescriptor]. *)
Theorem X10_descriptors_and_flagged_photos_stay_paired
        (db : list Students.Doc) :
  Forall Students.consistent db ->
  (forall newId created updated b,
      Forall Students.consistent
             (fst (Students.createStudent newId created updated db b))) /\
  (forall taken updated id b,
      Forall Students.consistent
             (fst (Students.addPhoto taken updated db id b))) /\
  (forall id, Forall Students.consistent (fst (Students.deleteStudent db id))).
Proof.
  intros Hdb. split; [ | split].
  - intros newId created updated b. unfold Students.createStudent.
    destruct (find _ db); trivial.
    destruct (_ && _); trivial.
    apply Forall_app. split; trivial. constructor; [reflexivity | constructor].
  - intros taken updated id b. unfold Students.addPhoto.
    destruct (Students.findById id db) as [student|] eqn:Hfind; trivial.
    cbn [fst].
    match goal with
    | |- context [Students.save ?s' db] =>
        destruct (save_found id db student s' Hfind eq_refl)
          as (before & after & -> & ->)
    end.
    apply Forall_app in Hdb as [Hbefore Hrest].
    apply Forall_app. split; trivial.
    inversion Hrest as [|? ? Hstudent Hafter]; subst.
    constructor; trivial.
    unfold Students.consistent in *.
    cbn [Students.referencePhotos Students.fields faceDescriptors].
    rewrite filter_app, length_app, Hstudent. cbn [filter Students.hasDescriptor].
    destruct (Students.faceDescriptor b); cbn [Students.provided length].
    + now rewrite length_app.
    + lia.
  - intros id. unfold Students.deleteStudent.
    destruct (Students.findById id db) as [student|] eqn:Hfind; trivial.
    cbn [fst].
    destruct (delete_found id db student Hfind) as (before & after & -> & -> & _).
    apply Forall_app in Hdb as [Hbefore Hrest].
    apply Forall_app. split; trivial. now inversion Hrest.
Qed.

Lemma X10_witness :
  Forall Students.consistent [ashaDoc; minaDoc] /\
  Forall Students.consistent
         (fst (Students.addPhoto 1700000000001 1700000000002
                                 [ashaDoc; minaDoc] "S4"
                                 {| Students.imageData := None;
                                    Students.faceDescriptor :=
                                      Some [0; 0.3]%R |})).
Proof.
  assert (H : Forall Students.consistent [ashaDoc; minaDoc])
    by (repeat constructor).
  split; [exact H | ].
  exact (proj1 (proj2 (X10_descriptors_and_flagged_photos_stay_paired
                         [ashaDoc; minaDoc] H))
               1700000000001%N 1700000000002%N "S4"%string
               {| Students.imageData := None;
                  Students.faceDescriptor := Some [0; 0.3]%R |}).
Defined.

Lemma distance_to_itself (d : Descriptor) :
  Server.euclideanDistance d d = Num 0.
Proof.
  rewrite euclideanDistance_short by lia.
  unfold euclid. now rewrite sumSquares_refl, sqrt_0.
Qed.

Lemma scan_match_at_zero (students : list Student) (probe : Descriptor)
      (s : Student) (stored : Descriptor) :
  In s students -> In stored (faceDescriptors s) ->
  Server.euclideanDistance probe stored = Num 0 ->
  exists s' stored',
    In s' students /\ In stored' (faceDescriptors s') /\
    Server.euclideanDistance probe stored' = Num 0 /\
    Server.bestMatch (Server.scan students probe) = Some (hit s' 1 0).
Proof.
  intros Hs Hstored Hzero.
  assert (Hex : exists m, Server.bestMatch (Server.scan students probe) = Some m).
  { apply scan_match_iff. exists (s, stored). split; [now apply in_pairs | ].
    cbn [snd]. rewrite Hzero. cbn [lt threshold]. apply Rltb_true. lra. }
  destruct Hex as [m Hm].
  destruct (scan_match_inv _ _ _ Hm)
    as (before & s' & stored' & after & Hsplit & Heq & Hlt & Hbelow & _).
  assert (Hin : In (s', stored') (pairs students)).
  { rewrite Hsplit. apply in_or_app. right. now left. }
  apply in_pairs_inv in Hin as [Hs' Hstored']. cbn [fst snd] in *.
  assert (Hd : Server.euclideanDistance probe stored' = Num 0).
  { specialize (Hbelow (s, stored) (in_pairs _ _ _ Hs Hstored)).
    cbn [snd] in Hbelow. rewrite Hzero in Hbelow.
    destruct (euclideanDistance_range probe stored') as [Hnan | (r & Hr & Hnum)].
    - rewrite Hnan in Hlt. discriminate.
    - rewrite Hnum in *. cbn [lt] in Hbelow. apply Rltb_false in Hbelow.
      f_equal. lra. }
  exists s', stored'. repeat split; trivial.
  rewrite Hm, Heq, Hd. unfold hit. cbn [sub]. do 3 f_equal. lra.
Qed.

(** X11: enrolment and recognition round trip: once a descriptor that is
    not empty has been added through the photo route to a student who holds
    no empty descriptor, the query returns that student, and a probe equal
    to the descriptor is matched at distance 0 with confidence 1 ("0.000"
    and "1.00" in the optimized variant), to a student of the query who
    holds a descriptor at distance 0 from it; to the enrolled student when
    no other document does. *)
Theorem X11_an_enrolled_descriptor_is_recognised
        (taken updated : N) (db : list Students.Doc) (id : string)
        (student : Students.Doc) (image : option string) (d : Descriptor) :
  Students.findById id db = Some student ->
  d <> [] ->
  (forall stored,
      In stored (faceDescriptors (Students.fields student)) -> stored <> []) ->
  exists student',
    Students.addPhoto taken updated db id
                      {| Students.imageData := image;
                         Students.faceDescriptor := Some d |}
      = (Students.save student' db, Http.Sent 200 student') /\
    infoOf (Students.fields student') = infoOf (Students.fields student) /\
    faceDescriptors (Students.fields student') =
      faceDescriptors (Students.fields student) ++ [d] /\
    In (Students.fields student')
       (findWithDescriptors (Students.gallery (Students.save student' db))) /\
    exists s,
      In s (findWithDescriptors
              (Students.gallery (Students.save student' db))) /\
      (exists stored, In stored (faceDescriptors s) /\
                      Server.euclideanDistance d stored = Num 0) /\
      Server.recognize (Students.gallery (Students.save student' db))
                       (body [d]) = Json200 [hit s 1 0] /\
      Optimized.recognize (Students.gallery (Students.save student' db))
                          (body [d]) = Json200 [hitText s "1.00" "0.000"] /\
      ((forall doc,
           In doc (Students.save student' db) ->
           (exists stored,
               In stored (faceDescriptors (Students.fields doc)) /\
               Server.euclideanDistance d stored = Num 0) ->
           doc = student') ->
       s = Students.fields student').
Proof.
  intros Hfind Hd Hheld. unfold Students.addPhoto. rewrite Hfind. cbv zeta.
  cbn [Students.imageData Students.faceDescriptor Students.provided].
  eexists. split; [reflexivity | ].
  split; [reflexivity | split; [reflexivity | ]].
  match goal with
  | |- context [Students.save ?s' db] =>
      set (student' := s');
      destruct (save_found id db student student' Hfind eq_refl)
        as (before & after & Hdb & Hsave)
  end.
  rewrite Hsave.
  assert (Hreturned :
            In (Students.fields student')
               (findWithDescriptors
                  (Students.gallery (before ++ student' :: after)))).
  { apply findWithDescriptors_holds with d.
    - unfold Students.gallery. apply in_map, in_or_app. right. now left.
    - cbn. apply in_or_app. right. now left.
    - cbn. intros stored [Hstored | [<- | []]]%in_app_or; auto. }
  split; [exact Hreturned | ].
  destruct (scan_match_at_zero
              (findWithDescriptors
                 (Students.gallery (before ++ student' :: after))) d
              (Students.fields student') d)
    as (s & stored & Hs & Hstored & Hzero & Hm).
  - exact Hreturned.
  - cbn. apply in_or_app. right. now left.
  - apply distance_to_itself.
  - exists s. split; [exact Hs | split; [now exists stored | ]].
    destruct (recognize_one _ _ _ Hm) as [-> ->]. split; trivial.
    split.
    + rewrite (format_hit s 1 0 100 0);
        [reflexivity | lra .. | simpl; lra | simpl; lra].
    + intros Honly. apply findWithDescriptors_In in Hs as [Hs _].
      unfold Students.gallery in Hs.
      apply in_map_iff in Hs as (doc & <- & Hdoc).
      f_equal. apply Honly; trivial. now exists stored.
Qed.

(** X11 on a second descriptor of a student who holds one. *)
Lemma X11_witness :
  Students.findById "S1" [ashaDoc; minaDoc] = Some ashaDoc /\
  [0; 0.3]%R <> [] /\
  (forall stored,
      In stored (faceDescriptors (Students.fields ashaDoc)) -> stored <> []) /\
  exists student',
    Students.addPhoto 1700000000001 1700000000002 [ashaDoc; minaDoc] "S1"
                      {| Students.imageData := None;
                         Students.faceDescriptor := Some [0; 0.3]%R |}
      = (Students.save student' [ashaDoc; minaDoc],
         Http.Sent 200 student') /\
    faceDescriptors (Students.fields student') = [[0; 0]; [0; 0.3]]%R /\
    exists s,
      Server.recognize
        (Students.gallery (Students.save student' [ashaDoc; minaDoc]))
        (body [[0; 0.3]%R]) = Json200 [hit s 1 0].
Proof.
  assert (H : Students.findById "S1" [ashaDoc; minaDoc] = Some ashaDoc)
    by reflexivity.
  assert (Hd : [0; 0.3]%R <> []) by discriminate.
  assert (Hheld : forall stored,
             In stored (faceDescriptors (Students.fields ashaDoc)) ->
             stored <> []).
  { intros stored [<- | []]. discriminate. }
  split; [exact H | split; [exact Hd | split; [exact Hheld | ]]].
  destruct (X11_an_enrolled_descriptor_is_recognised
              1700000000001 1700000000002 [ashaDoc; minaDoc] "S1" ashaDoc
              None [0; 0.3]%R H Hd Hheld)
    as (student' & Hadd & _ & Hdesc & _ & s & _ & _ & Hserver & _).
  exists student'. split; [exact Hadd | split; [exact Hdesc | ]].
  now exists s.
Defined.

Lemma visit_same_info (probe : Descriptor) (s s' : Student)
      (best : Server.Best) (stored : Descriptor) :
  infoOf s = infoOf s' ->
  Server.visit probe s best stored = Server.visit probe s' best stored.
Proof. intros Hinfo. unfold Server.visit. now rewrite Hinfo. Qed.

Lemma scanStudent_same_info (probe : Descriptor) (s s' : Student)
      (l : list Descriptor) (best : Server.Best) :
  infoOf s = infoOf s' ->
  fold_left (Server.visit probe s) l best =
  fold_left (Server.visit probe s') l best.
Proof.
  intros Hinfo. revert best. induction l as [|x l IH]; intros best; trivial.
  cbn [fold_left]. now rewrite IH, (visit_same_info probe s s').
Qed.

Lemma recognize_same_scans (collection collection' : list Student)
      (probes : list Descriptor) :
  (forall probe,
      In probe probes ->
      Server.scan (findWithDescriptors collection') probe =
      Server.scan (findWithDescriptors collection) probe) ->
  Server.recognize collection' (body probes) =
    Server.recognize collection (body probes) /\
  Optimized.recognize collection' (body probes) =
    Optimized.recognize collection (body probes).
Proof.
  intros Hall.
  rewrite !recognize_entries, !Optimized_recognize_entries.
  induction probes as [|probe rest IH]; [now split | ].
  cbn [flat_map]. rewrite (Hall probe) by now left.
  destruct IH as [IH1 IH2].
  { intros p Hp. apply Hall. now right. }
  injection IH1 as IH1. injection IH2 as IH2. now rewrite IH1, IH2.
Qed.

Lemma findWithDescriptors_app (l l' : list Student) :
  findWithDescriptors (l ++ l') =
  findWithDescriptors l ++ findWithDescriptors l'.
Proof. apply filter_app. Qed.

(** A document replaced in its place: the scan changes only by the turns of
    that document. *)
Lemma scan_replaced (before after : list Student) (s s' : Student)
      (probe : Descriptor) :
  (forall best,
      fold_left (Server.scanStudent probe) (findWithDescriptors [s']) best =
      fold_left (Server.scanStudent probe) (findWithDescriptors [s]) best) ->
  Server.scan (findWithDescriptors (before ++ s' :: after)) probe =
  Server.scan (findWithDescriptors (before ++ s :: after)) probe.
Proof.
  intros Hturns. unfold Server.scan.
  change (s' :: after) with ([s'] ++ after).
  change (s :: after) with ([s] ++ after).
  rewrite !findWithDescriptors_app, !fold_left_app. now rewrite Hturns.
Qed.

Lemma findWithDescriptors_dropped (before after : list Student) (s : Student) :
  hasDescriptors s = false ->
  findWithDescriptors (before ++ s :: after) =
  findWithDescriptors (before ++ after).
Proof.
  intros Hs. rewrite !findWithDescriptors_app.
  cbn [findWithDescriptors filter]. now rewrite Hs.
Qed.

Lemma hasDescriptors_empty_element (s : Student) :
  In [] (faceDescriptors s) -> hasDescriptors s = false.
Proof.
  intros Hin. destruct (hasDescriptors s) eqn:Hs; trivial.
  apply hasDescriptors_true in Hs as [_ Hall]. now elim (Hall [] Hin).
Qed.

Lemma ne_empty_snoc (field : list Descriptor) (d : Descriptor) :
  d <> [] ->
  ne_empty (field ++ [d]) =
  forallb (fun element => negb (isEmpty element)) field.
Proof.
  intros Hd. unfold ne_empty. rewrite forallb_app. cbn [forallb].
  replace (isEmpty d) with false by (symmetry; now apply isEmpty_false).
  cbn [negb andb]. rewrite andb_true_r.
  now destruct field.
Qed.

Lemma ne_empty_cons (x : Descriptor) (l : list Descriptor) :
  ne_empty (x :: l) =
  forallb (fun element => negb (isEmpty element)) (x :: l).
Proof. reflexivity. Qed.

(** The turns of the scan on a document that gained a descriptor shorter
    than the probe. *)
Lemma turns_with_short_descriptor (probe d : Descriptor) (s s' : Student) :
  infoOf s' = infoOf s ->
  faceDescriptors s' = faceDescriptors s ++ [d] ->
  d <> [] -> length d < length probe ->
  forall best,
    fold_left (Server.scanStudent probe) (findWithDescriptors [s']) best =
    fold_left (Server.scanStudent probe) (findWithDescriptors [s]) best.
Proof.
  intros Hinfo Hdesc Hne Hlen best.
  assert (Hturn : forall best0, Server.visit probe s' best0 d = best0).
  { intros best0. now apply visit_NaN, euclideanDistance_long. }
  cbn [findWithDescriptors filter]. unfold hasDescriptors.
  rewrite Hdesc, ne_empty_snoc by trivial.
  destruct (faceDescriptors s) as [|x l] eqn:Hheld.
  - cbn [forallb ne_empty isEmpty negb andb fold_left].
    unfold Server.scanStudent. rewrite Hdesc. cbn [app fold_left].
    apply Hturn.
  - rewrite ne_empty_cons.
    destruct (forallb (fun element => negb (isEmpty element)) (x :: l));
      trivial.
    cbn [fold_left]. unfold Server.scanStudent.
    rewrite Hdesc, Hheld, fold_left_app.
    rewrite (scanStudent_same_info probe s s' (x :: l) best)
      by (now symmetry).
    cbn [fold_left]. apply Hturn.
Qed.

Lemma turns_with_same_descriptors (probe : Descriptor) (s s' : Student) :
  infoOf s' = infoOf s ->
  faceDescriptors s' = faceDescriptors s ->
  forall best,
    fold_left (Server.scanStudent probe) (findWithDescriptors [s']) best =
    fold_left (Server.scanStudent probe) (findWithDescriptors [s]) best.
Proof.
  intros Hinfo Hdesc best.
  cbn [findWithDescriptors filter]. unfold hasDescriptors. rewrite Hdesc.
  destruct (ne_empty (faceDescriptors s)); trivial.
  cbn [fold_left]. unfold Server.scanStudent. rewrite Hdesc.
  now apply scanStudent_same_info.
Qed.

(** X12: a photo that comes without a descriptor, or with a descriptor that
    is not empty and is shorter than every probe, leaves the answer of the
    recognition route as it was. *)
Theorem X12_a_photo_that_cannot_match_changes_no_answer
        (taken updated : N) (db : list Students.Doc) (id : string)
        (b : Students.NewPhoto) (probes : list Descriptor) :
  (forall d,
      Students.faceDescriptor b = Some d ->
      d <> [] /\
      forall probe, In probe probes -> length d < length probe) ->
  Server.recognize
    (Students.gallery (fst (Students.addPhoto taken updated db id b)))
    (body probes) =
    Server.recognize (Students.gallery db) (body probes) /\
  Optimized.recognize
    (Students.gallery (fst (Students.addPhoto taken updated db id b)))
    (body probes) =
    Optimized.recognize (Students.gallery db) (body probes).
Proof.
  intros Hshort. apply recognize_same_scans. intros probe Hprobe.
  unfold Students.addPhoto.
  destruct (Students.findById id db) as [student|] eqn:Hfind; trivial.
  cbv zeta. cbn [fst].
  match goal with
  | |- context [Students.save ?s' db] =>
      set (student' := s');
      destruct (save_found id db student student' Hfind eq_refl)
        as (before & after & -> & ->)
  end.
  unfold Students.gallery. rewrite !map_app. cbn [map].
  apply scan_replaced. subst student'. cbn [Students.fields].
  destruct (Students.faceDescriptor b) as [d|] eqn:Hd.
  - destruct (Hshort d eq_refl) as [Hne Hlen].
    apply turns_with_short_descriptor with d; trivial. now apply Hlen.
  - now apply turns_with_same_descriptors.
Qed.

(** X12 on a descriptor of one component against a probe of two. *)
Lemma X12_witness :
  (forall d,
      Some [0%R] = Some d ->
      d <> [] /\
      forall probe, In probe [[0; 0]%R] -> length d < length probe) /\
  Server.recognize
    (Students.gallery
       (fst (Students.addPhoto 1700000000001 1700000000002
                               [ashaDoc; minaDoc] "S1"
                               {| Students.imageData := None;
                                  Students.faceDescriptor := Some [0%R] |})))
    (body [[0; 0]%R]) =
    Server.recognize (Students.gallery [ashaDoc; minaDoc]) (body [[0; 0]%R]).
Proof.
  assert (H : forall d,
             Some [0%R] = Some d ->
             d <> [] /\
             forall probe, In probe [[0; 0]%R] -> length d < length probe).
  { intros d [= <-]. split; [discriminate | ].
    intros probe [<- | []]. simpl. lia. }
  split; [exact H | ].
  exact (proj1 (X12_a_photo_that_cannot_match_changes_no_answer
                  1700000000001 1700000000002 [ashaDoc; minaDoc] "S1"
                  {| Students.imageData := None;
                     Students.faceDescriptor := Some [0%R] |}
                  [[0; 0]%R] H)).
Defined.

Lemma find_none_iff {A : Type} (f : A -> bool) (l : list A) :
  find f l = None <-> forall x, In x l -> f x = false.
Proof.
  split; [apply find_none | ].
  induction l as [|a l IH]; intros Hall; trivial.
  cbn [find]. rewrite (Hall a) by now left.
  apply IH. intros x Hx. apply Hall. now right.
Qed.

Lemma NoDup_snoc {A : Type} (l : list A) (x : A) :
  NoDup l -> ~ In x l -> NoDup (l ++ [x]).
Proof.
  intros Hl Hx. apply NoDup_app; trivial.
  - repeat constructor. intros [].
  - intros y Hy [<- | []]. contradiction.
Qed.

(** X13: creating a student keeps roll numbers and e-mail addresses unique,
    answers 400 "Student already exists" exactly when a document already has
    the roll number or the e-mail address of the request, and never changes
    an answer of the recognition route: a student is created without
    descriptors. *)
Theorem X13_creating_a_student_keeps_the_keys_unique
        (newId : string) (created updated : N) (db : list Students.Doc)
        (b : Students.NewStudent) :
  NoDup (map rollNo (Students.gallery db)) ->
  NoDup (map email (Students.gallery db)) ->
  NoDup (map rollNo
             (Students.gallery
                (fst (Students.createStudent newId created updated db b)))) /\
  NoDup (map email
             (Students.gallery
                (fst (Students.createStudent newId created updated db b)))) /\
  (snd (Students.createStudent newId created updated db b) =
     Http.Refused 400 "Student already exists" <->
   exists doc, In doc db /\
               (rollNo (Students.fields doc) = Students.new_rollNo b \/
                email (Students.fields doc) = Students.new_email b)) /\
  (forall probes,
      Server.recognize
        (Students.gallery
           (fst (Students.createStudent newId created updated db b)))
        (body probes) =
        Server.recognize (Students.gallery db) (body probes) /\
      Optimized.recognize
        (Students.gallery
           (fst (Students.createStudent newId created updated db b)))
        (body probes) =
        Optimized.recognize (Students.gallery db) (body probes)).
Proof.
  intros Hroll Hmail. unfold Students.createStudent.
  destruct (find _ db) as [existing|] eqn:Hfind.
  - cbn [fst snd]. repeat split; trivial.
    intros _. apply find_some in Hfind as [Hin Hsame].
    exists existing. split; trivial.
    apply orb_prop in Hsame as [H | H]; apply String.eqb_eq in H; auto.
  - pose proof (proj1 (find_none_iff _ _) Hfind) as Hnone.
    assert (Hnot : ~ exists doc,
                 In doc db /\
                 (rollNo (Students.fields doc) = Students.new_rollNo b \/
                  email (Students.fields doc) = Students.new_email b)).
    { intros (doc & Hdoc & Hsame). specialize (Hnone doc Hdoc).
      apply orb_false_elim in Hnone as [H1 H2].
      apply String.eqb_neq in H1, H2. tauto. }
    destruct (_ && _); cbn [fst snd].
    + unfold Students.gallery. rewrite !map_app. cbn [map Students.fields
        rollNo email].
      split; [ | split; [ | split]].
      * apply NoDup_snoc; trivial. rewrite map_map. intros Hin.
        apply in_map_iff in Hin as (doc & Heq & Hdoc).
        apply Hnot. exists doc. auto.
      * apply NoDup_snoc; trivial. rewrite map_map. intros Hin.
        apply in_map_iff in Hin as (doc & Heq & Hdoc).
        apply Hnot. exists doc. auto.
      * split; [discriminate | intros H; now elim Hnot].
      * intros probes. apply recognize_same_scans. intros probe _.
        rewrite findWithDescriptors_app. cbn [findWithDescriptors filter].
        now rewrite app_nil_r.
    + repeat split; trivial; try discriminate. intros H; now elim Hnot.
Qed.

Lemma X13_witness :
  NoDup (map rollNo (Students.gallery [ashaDoc; minaDoc])) /\
  NoDup (map email (Students.gallery [ashaDoc; minaDoc])) /\
  NoDup (map rollNo
             (Students.gallery
                (fst (Students.createStudent
                        "S5" 1700000000003 1700000000003 [ashaDoc; minaDoc]
                        {| Students.new_name := "Omar";
                           Students.new_rollNo := "05";
                           Students.new_email := "omar@example.org" |})))).
Proof.
  assert (Hroll : NoDup (map rollNo (Students.gallery [ashaDoc; minaDoc]))).
  { repeat constructor; simpl; intuition discriminate. }
  assert (Hmail : NoDup (map email (Students.gallery [ashaDoc; minaDoc]))).
  { repeat constructor; simpl; intuition discriminate. }
  split; [exact Hroll | split; [exact Hmail | ]].
  exact (proj1 (X13_creating_a_student_keeps_the_keys_unique
                  "S5" 1700000000003 1700000000003 [ashaDoc; minaDoc]
                  {| Students.new_name := "Omar";
                     Students.new_rollNo := "05";
                     Students.new_email := "omar@example.org" |}
                  Hroll Hmail)).
Defined.

(** X14: with unique ids, deleting a student removes the document with that
    id and no other, and the recognition route never names that student
    again. *)
Theorem X14_a_deleted_student_is_never_matched
        (db : list Students.Doc) (id : string) :
  NoDup (map _id (Students.gallery db)) ->
  (forall doc, In doc (fst (Students.deleteStudent db id)) ->
               In doc db /\ _id (Students.fields doc) <> id) /\
  (forall doc, In doc db -> _id (Students.fields doc) <> id ->
               In doc (fst (Students.deleteStudent db id))) /\
  (forall probes m,
      In m (Server.matchAll
              (findWithDescriptors
                 (Students.gallery (fst (Students.deleteStudent db id))))
              probes) ->
      info_id (Server.student m) <> id) /\
  (forall probes m,
      In m (Optimized.matchAll
              (findWithDescriptors
                 (Students.gallery (fst (Students.deleteStudent db id))))
              probes) ->
      info_id (Optimized.student m) <> id).
Proof.
  intros Hids.
  assert (Hgone : forall doc, In doc (fst (Students.deleteStudent db id)) ->
                              In doc db /\ _id (Students.fields doc) <> id).
  { unfold Students.deleteStudent.
    destruct (Students.findById id db) as [student|] eqn:Hfind; cbn [fst].
    - destruct (delete_found id db student Hfind)
        as (before & after & -> & -> & Hid).
      apply find_split in Hfind as (before' & after' & Heq & _ & _).
      clear before' after' Heq.
      unfold Students.gallery in Hids. rewrite !map_app in Hids.
      cbn [map] in Hids. apply NoDup_remove_2 in Hids.
      intros doc Hdoc. split.
      + apply in_app_or in Hdoc as [H | H]; apply in_or_app; auto.
        right. now right.
      + intros Heq. apply Hids. rewrite Hid, <- Heq.
        apply in_app_or in Hdoc as [H | H]; apply in_or_app; [left | right];
          apply (in_map _id), (in_map Students.fields); exact H.
    - intros doc Hdoc. split; trivial.
      apply (proj1 (find_none_iff _ _) Hfind) in Hdoc.
      now apply String.eqb_neq in Hdoc. }
  assert (Hnames : forall s,
             In s (Students.gallery (fst (Students.deleteStudent db id))) ->
             _id s <> id).
  { intros s Hs. apply in_map_iff in Hs as (doc & <- & Hdoc).
    now apply Hgone. }
  split; [exact Hgone | split; [ | split]].
  - intros doc Hdoc Hne. unfold Students.deleteStudent.
    destruct (Students.findById id db) as [student|] eqn:Hfind; trivial.
    cbn [fst].
    destruct (delete_found id db student Hfind)
      as (before & after & -> & -> & Hid).
    apply in_app_or in Hdoc as [H | [<- | H]]; apply in_or_app; auto.
    contradiction.
  - intros probes m Hm.
    apply (proj1 (matchAll_names_student _ probes)) in Hm
      as (s & Hs & _ & ->).
    cbn [infoOf info_id]. now apply Hnames.
  - intros probes m Hm.
    apply (proj2 (matchAll_names_student _ probes)) in Hm
      as (s & Hs & _ & ->).
    cbn [infoOf info_id]. now apply Hnames.
Qed.

Lemma X14_witness :
  NoDup (map _id (Students.gallery [ashaDoc; minaDoc])) /\
  forall doc, In doc (fst (Students.deleteStudent [ashaDoc; minaDoc] "S1")) ->
              In doc [ashaDoc; minaDoc] /\
              _id (Students.fields doc) <> "S1"%string.
Proof.
  assert (H : NoDup (map _id (Students.gallery [ashaDoc; minaDoc]))).
  { repeat constructor; simpl; intuition discriminate. }
  split; [exact H | ].
  exact (proj1 (X14_a_deleted_student_is_never_matched
                  [ashaDoc; minaDoc] "S1" H)).
Defined.

Lemma find_found {A : Type} (f : A -> bool) (before after : list A) (x : A) :
  (forall y, In y before -> f y = false) -> f x = true ->
  find f (before ++ x :: after) = Some x.
Proof.
  intros Hbefore Hx. induction before as [|a before IH]; cbn [app find].
  - now rewrite Hx.
  - rewrite (Hbefore a) by now left. apply IH.
    intros y Hy. apply Hbefore. now right.
Qed.

(** A document saved in the place of the one found by its id: it is the one
    the id finds from then on, and deleting by the id leaves what it would
    have left before. *)
Lemma found_in_place (id : string) (db : list Students.Doc)
      (student student' : Students.Doc) :
  Students.findById id db = Some student ->
  _id (Students.fields student') = _id (Students.fields student) ->
  exists before after,
    db = before ++ student :: after /\
    Students.save student' db = before ++ student' :: after /\
    Students.delete id db = before ++ after /\
    Students.findById id (before ++ student' :: after) = Some student' /\
    Students.delete id (before ++ student' :: after) = before ++ after.
Proof.
  intros Hfind Hid. apply find_split in Hfind
    as (before & after & -> & Hx & Hbefore).
  assert (Hx' : (_id (Students.fields student') =? id)%string = true)
    by now rewrite Hid.
  exists before, after. split; trivial.
  apply String.eqb_eq in Hx.
  split; [ | split; [ | split]].
  - rewrite <- Hx in Hbefore. clear Hx'.
    induction before as [|d before IH]; cbn [Students.save app].
    + now rewrite Hid, String.eqb_refl.
    + rewrite Hid, (Hbefore d) by now left.
      f_equal. apply IH. intros y Hy. apply Hbefore. now right.
  - induction before as [|d before IH]; cbn [Students.delete app].
    + now rewrite Hx, String.eqb_refl.
    + rewrite (Hbefore d) by now left.
      f_equal. apply IH. intros y Hy. apply Hbefore. now right.
  - now apply find_found.
  - induction before as [|d before IH]; cbn [Students.delete app].
    + now rewrite Hx'.
    + rewrite (Hbefore d) by now left.
      f_equal. apply IH. intros y Hy. apply Hbefore. now right.
Qed.

(** The answers of the recognition route on a collection in which a document
    that holds an empty descriptor stands between [before] and [after]. *)
Lemma recognize_hidden (before after : list Students.Doc)
      (hidden : Students.Doc) (probes : list Descriptor) :
  In [] (faceDescriptors (Students.fields hidden)) ->
  Server.recognize (Students.gallery (before ++ hidden :: after))
                   (body probes) =
    Server.recognize (Students.gallery (before ++ after)) (body probes) /\
  Optimized.recognize (Students.gallery (before ++ hidden :: after))
                      (body probes) =
    Optimized.recognize (Students.gallery (before ++ after)) (body probes).
Proof.
  intros Hempty. apply recognize_same_scans. intros probe _.
  unfold Students.gallery. rewrite !map_app. cbn [map].
  rewrite findWithDescriptors_dropped; trivial.
  now apply hasDescriptors_empty_element.
Qed.

(** X21: a photo posted with an empty descriptor takes the student out of
    recognition.  The empty array is stored like any other descriptor, the
    query of the recognition route no longer returns the document, and the
    route answers every batch as it would if the document had been deleted;
    no later photo of that student changes that. *)
Theorem X21_an_empty_descriptor_hides_the_student
        (taken updated : N) (db : list Students.Doc) (id : string)
        (student : Students.Doc) (image : option string) :
  Students.findById id db = Some student ->
  exists hidden,
    Students.addPhoto taken updated db id
                      {| Students.imageData := image;
                         Students.faceDescriptor := Some [] |}
      = (Students.save hidden db, Http.Sent 200 hidden) /\
    faceDescriptors (Students.fields hidden) =
      faceDescriptors (Students.fields student) ++ [[]] /\
    ~ In (Students.fields hidden)
         (findWithDescriptors (Students.gallery (Students.save hidden db))) /\
    (forall probes,
        Server.recognize (Students.gallery (Students.save hidden db))
                         (body probes) =
          Server.recognize (Students.gallery (Students.delete id db))
                           (body probes) /\
        Optimized.recognize (Students.gallery (Students.save hidden db))
                            (body probes) =
          Optimized.recognize (Students.gallery (Students.delete id db))
                              (body probes)) /\
    (forall taken' updated' b probes,
        Server.recognize
          (Students.gallery
             (fst (Students.addPhoto taken' updated'
                                     (Students.save hidden db) id b)))
          (body probes) =
          Server.recognize (Students.gallery (Students.delete id db))
                           (body probes) /\
        Optimized.recognize
          (Students.gallery
             (fst (Students.addPhoto taken' updated'
                                     (Students.save hidden db) id b)))
          (body probes) =
          Optimized.recognize (Students.gallery (Students.delete id db))
                              (body probes)).
Proof.
  intros Hfind. unfold Students.addPhoto at 1. rewrite Hfind. cbv zeta.
  cbn [Students.imageData Students.faceDescriptor Students.provided].
  eexists. split; [reflexivity | ].
  split; [reflexivity | ].
  match goal with
  | |- context [Students.save ?s' db] =>
      set (hidden := s');
      destruct (found_in_place id db student hidden Hfind eq_refl)
        as (before & after & Hdb & Hsave & Hdelete & Hfound & Hdelete')
  end.
  assert (Hempty : In [] (faceDescriptors (Students.fields hidden))).
  { cbn. apply in_or_app. right. now left. }
  rewrite Hsave, Hdelete.
  split; [ | split].
  - intros [_ Hhas]%findWithDescriptors_In.
    now rewrite hasDescriptors_empty_element in Hhas.
  - intros probes. now apply recognize_hidden.
  - intros taken' updated' b probes.
    unfold Students.addPhoto. rewrite Hfound. cbv zeta. cbn [fst].
    match goal with
    | |- context [Students.save ?s' _] =>
        set (later := s');
        destruct (found_in_place id (before ++ hidden :: after) hidden later
                                 Hfound eq_refl)
          as (before' & after' & Hdb' & Hsave' & Hdel' & _)
    end.
    rewrite Hsave'. rewrite Hdelete' in Hdel'. rewrite Hdel'.
    apply recognize_hidden. subst later.
    cbn [Students.fields faceDescriptors].
    destruct (Students.faceDescriptor b); trivial.
    apply in_or_app. now left.
Qed.

(** X21 on the only student with a descriptor: she was matched before the
    photo and is not matched after it. *)
Lemma X21_witness :
  Students.findById "S1" [ashaDoc; minaDoc] = Some ashaDoc /\
  Server.recognize (Students.gallery [ashaDoc; minaDoc]) (body [[0; 0]%R]) =
    Json200 [hit asha 1 0] /\
  exists hidden,
    Students.addPhoto 1700000000001 1700000000002 [ashaDoc; minaDoc] "S1"
                      {| Students.imageData := None;
                         Students.faceDescriptor := Some [] |}
      = (Students.save hidden [ashaDoc; minaDoc], Http.Sent 200 hidden) /\
    faceDescriptors (Students.fields hidden) = [[0; 0]%R; []] /\
    Server.recognize (Students.gallery (Students.save hidden [ashaDoc; minaDoc]))
                     (body [[0; 0]%R]) = Json200 [].
Proof.
  assert (H : Students.findById "S1" [ashaDoc; minaDoc] = Some ashaDoc)
    by reflexivity.
  split; [exact H | split].
  - rewrite recognize_entries.
    change (findWithDescriptors (Students.gallery [ashaDoc; minaDoc]))
      with [asha].
    cbn [flat_map]. now rewrite asha_same.
  - destruct (X21_an_empty_descriptor_hides_the_student
                1700000000001 1700000000002 [ashaDoc; minaDoc] "S1" ashaDoc
                None H)
      as (hidden & Hadd & Hdesc & _ & Hgone & _).
    exists hidden. split; [exact Hadd | split; [exact Hdesc | ]].
    now rewrite (proj1 (Hgone [[0; 0]%R])).
Defined.

(** * The attendance reports *)

Lemma count_append (c : ascii) (a b : string) :
  JSString.count c (a ++ b) = JSString.count c a + JSString.count c b.
Proof.
  induction a as [|x a IH]; cbn [append JSString.count]; trivial.
  rewrite IH. lia.
Qed.

Lemma count_concat_newline (rows : list string) :
  JSString.count JSString.newline
                 (String.concat (String JSString.newline EmptyString) rows) =
  Nat.pred (length rows) +
  list_sum (map (JSString.count JSString.newline) rows).
Proof.
  induction rows as [|r rows IH]; trivial.
  destruct rows as [|r' rows].
  - cbn [String.concat length Nat.pred map list_sum fold_right]. lia.
  - set (lf := String JSString.newline EmptyString) in *.
    change (String.concat lf (r :: r' :: rows))
      with (r ++ lf ++ String.concat lf (r' :: rows))%string.
    rewrite !count_append, IH.
    cbn [map list_sum fold_right length Nat.pred].
    change (JSString.count JSString.newline lf) with 1. lia.
Qed.

(** X15: the CSV export is the header line followed by one line per record,
    the lines separated by a line feed and the last one not terminated: with
    no record it is the header alone, and otherwise it holds as many line
    feeds as records, plus those that the fields themselves contain. *)
Theorem X15_export_has_one_line_per_record
        (NumberToString : R -> string)
        (attendance : list Reports.Attendance) :
  Reports.exportCsv NumberToString [] = Reports.csvHeader /\
  JSString.count JSString.newline
                 (Reports.exportCsv NumberToString attendance) =
    Nat.max 1 (length attendance) +
    list_sum (map (fun record =>
                     JSString.count JSString.newline
                                    (Reports.row NumberToString record))
                  attendance).
Proof.
  split.
  - unfold Reports.exportCsv. cbn [map String.concat].
    induction Reports.csvHeader as [|c s IH]; cbn [append]; trivial.
    now rewrite IH.
  - unfold Reports.exportCsv. rewrite count_append, count_concat_newline.
    rewrite length_map, map_map.
    change (JSString.count JSString.newline Reports.csvHeader) with 1.
    destruct attendance; cbn [length Nat.pred Nat.max]; lia.
Qed.

(** X16: the export never quotes or escapes a field: a row holds the six
    separating commas of the header plus every comma that occurs inside its
    fields, so a comma in a name shifts the columns that follow. *)
Theorem X16_export_does_not_quote_fields
        (NumberToString : R -> string) (record : Reports.Attendance) :
  JSString.count "," Reports.csvHeader = 6 /\
  JSString.count "," (Reports.row NumberToString record) =
    6 + (JSString.count "," (JSString.show (Reports.date record)) +
         JSString.count "," (JSString.show (Reports.time record)) +
         JSString.count "," (JSString.show (Reports.studentName record)) +
         JSString.count "," (JSString.show (Reports.rollNo record)) +
         JSString.count "," (Reports.percent NumberToString
                                             (Reports.confidence record)) +
         JSString.count "," (JSString.show (Reports.method record)) +
         JSString.count "," (JSString.show (Reports.status record))).
Proof.
  split; [reflexivity | ].
  unfold Reports.row. rewrite !count_append.
  change (JSString.count "," ",") with 1.
  change (JSString.count "," "%,") with 1. lia.
Qed.


(** X17: the export filters by date only when both bounds are given and not
    empty: with one bound alone every record is exported; with both, exactly
    the records whose date lies between them, bounds included, in the order
    of strings, and no record without a date. *)
Theorem X17_export_range_needs_both_bounds
        (startDate endDate : option string)
        (collection : list Reports.Attendance) :
  (JSString.truthy startDate && JSString.truthy endDate = false ->
   Reports.exportFind startDate endDate collection = collection) /\
  (JSString.truthy startDate && JSString.truthy endDate = true ->
   forall record,
     In record (Reports.exportFind startDate endDate collection) <->
     In record collection /\
     exists d, Reports.date record = Some d /\
               (JSString.show startDate <=? d)%string = true /\
               (d <=? JSString.show endDate)%string = true).
Proof.
  unfold Reports.exportFind. split.
  - intros Hfalsy.
    assert (Hq : Reports.exportQuery startDate endDate = None).
    { destruct startDate as [[|c s]|], endDate as [[|c' e]|];
        trivial; discriminate. }
    rewrite Hq. cbn [Reports.selected].
    induction collection as [|r l IH]; trivial. cbn [filter]. now rewrite IH.
  - intros Htruthy record.
    destruct startDate as [[|c s]|]; try discriminate.
    destruct endDate as [[|c' e]|]; try discriminate.
    cbn [Reports.exportQuery JSString.show].
    rewrite filter_In. unfold Reports.selected.
    destruct (Reports.date record) as [d|].
    + rewrite andb_true_iff. split.
      * intros (Hin & Hs & He). split; trivial. now exists d.
      * intros (Hin & d' & [= <-] & Hs & He). auto.
    + split; [intros [_ H]; discriminate | ].
      intros (_ & d & H & _). discriminate.
Qed.

Lemma X17_witness :
  JSString.truthy (Some "2024-03-01"%string) && JSString.truthy None = false /\
  Reports.exportFind (Some "2024-03-01"%string) None [ashaPresent] =
    [ashaPresent].
Proof.
  split; [reflexivity | ].
  exact (proj1 (X17_export_range_needs_both_bounds
                  (Some "2024-03-01"%string) None [ashaPresent]) eq_refl).
Defined.





(** * The authentication routes *)

Lemma find_app {A : Type} (f : A -> bool) (l l' : list A) :
  find f (l ++ l') = match find f l with
                     | Some x => Some x
                     | None => find f l'
                     end.
Proof.
  induction l as [|a l IH]; trivial. cbn [app find].
  now destruct (f a).
Qed.

Lemma register_cases (hashedPassword newId : string) (db : list Users.User)
      (b : Users.Registration) :
  let user := {| Users.user_id := newId;
                 Users.username := Users.reg_username b;
                 Users.email := Users.reg_email b;
                 Users.password := hashedPassword;
                 Users.role := Users.roleOr (Users.reg_role b) |} in
  (exists u, In u db /\
             (Users.email u = Users.reg_email b \/
              Users.username u = Users.reg_username b) /\
             Users.register hashedPassword newId db b =
               (db, Http.Refused 400 "User already exists")) \/
  ((forall u, In u db ->
              Users.email u <> Users.reg_email b /\
              Users.username u <> Users.reg_username b) /\
   ((Users.allowedRole (Users.role user) = true /\
     Users.register hashedPassword newId db b =
       (db ++ [user], Http.Sent 201 newId)) \/
    Users.register hashedPassword newId db b =
      (db, Http.Failed Http.ValidationError))).
Proof.
  intros user. unfold Users.register.
  destruct (find _ db) as [existing|] eqn:Hfind.
  - left. apply find_some in Hfind as [Hin Hsame]. exists existing.
    repeat split; trivial.
    apply orb_prop in Hsame as [H | H]; apply String.eqb_eq in H; auto.
  - right. split.
    + intros u Hu. apply (find_none _ _ Hfind) in Hu.
      apply orb_false_elim in Hu as [H1 H2].
      now apply String.eqb_neq in H1, H2.
    + fold user.
      destruct (Http.required (Users.username user)
                && Http.required (Users.email user)
                && Http.required (Users.password user)) eqn:Hreq;
        cbn [andb]; [ | now right].
      destruct (Users.allowedRole (Users.role user)) eqn:Hrole;
        [left | right]; auto.
Qed.

(** X19: registration, login and the middleware fit together.  After a
    registration that succeeded, a login with the same e-mail address and
    password is answered 200 with a token whose payload carries the new id,
    the user name and the role that was stored (an allowed one); the files
    sign and verify with the same secret, so that request header
    "Bearer <token>" passes [authenticateToken] with that payload; a
    password that bcrypt does not accept is answered 400. *)
Theorem X19_a_registered_user_can_log_in
        (compare : string -> string -> bool)
        (sign : Users.Payload -> string -> string)
        (verify : string -> string -> option Users.Payload)
        (JWT_SECRET : option string)
        (hashedPassword newId : string)
        (db db' : list Users.User) (b : Users.Registration) :
  let payload := {| Users.payload_userId := newId;
                    Users.payload_username := Users.reg_username b;
                    Users.payload_role := Users.roleOr (Users.reg_role b) |} in
  let session secret :=
    {| Users.token := sign payload secret;
       Users.session_id := newId;
       Users.session_username := Users.reg_username b;
       Users.session_email := Users.reg_email b;
       Users.session_role := Users.roleOr (Users.reg_role b) |} in
  Users.register hashedPassword newId db b = (db', Http.Sent 201 newId) ->
  compare (Users.reg_password b) hashedPassword = true ->
  (forall secret,
      JSString.count " " (sign payload secret) = 0 /\
      sign payload secret <> EmptyString /\
      verify (sign payload secret) secret = Some payload) ->
  Users.allowedRole (Users.roleOr (Users.reg_role b)) = true /\
  ServerApp.login compare sign db'
                  {| Users.cred_email := Users.reg_email b;
                     Users.cred_password := Users.reg_password b |}
    = Http.Sent 200 (session "your-secret-key"%string) /\
  OptimizedApp.login compare sign JWT_SECRET db'
                     {| Users.cred_email := Users.reg_email b;
                        Users.cred_password := Users.reg_password b |}
    = Http.Sent 200 (session (OptimizedApp.secret JWT_SECRET)) /\
  ServerApp.authenticateToken
    verify (Some ("Bearer " ++ sign payload "your-secret-key")%string)
    = Auth.Next payload /\
  OptimizedApp.authenticateToken
    verify JWT_SECRET
    (Some ("Bearer " ++ sign payload (OptimizedApp.secret JWT_SECRET))%string)
    = Auth.Next payload /\
  (forall other,
      compare other hashedPassword = false ->
      ServerApp.login compare sign db'
                      {| Users.cred_email := Users.reg_email b;
                         Users.cred_password := other |}
        = Http.Refused 400 "Invalid credentials" /\
      OptimizedApp.login compare sign JWT_SECRET db'
                         {| Users.cred_email := Users.reg_email b;
                            Users.cred_password := other |}
        = Http.Refused 400 "Invalid credentials").
Proof.
  intros payload session Hreg Hcompare Hjwt.
  destruct (register_cases hashedPassword newId db b)
    as [(u & _ & _ & Heq) | (Hnew & [(Hrole & Heq) | Heq])];
    rewrite Heq in Hreg; try discriminate.
  injection Hreg as <-.
  assert (Hfind : forall email,
             email = Users.reg_email b ->
             find (fun u => (Users.email u =? email)%string)
                  (db ++ [{| Users.user_id := newId;
                             Users.username := Users.reg_username b;
                             Users.email := Users.reg_email b;
                             Users.password := hashedPassword;
                             Users.role := Users.roleOr (Users.reg_role b) |}])
             = Some {| Users.user_id := newId;
                       Users.username := Users.reg_username b;
                       Users.email := Users.reg_email b;
                       Users.password := hashedPassword;
                       Users.role := Users.roleOr (Users.reg_role b) |}).
  { intros email ->. rewrite find_app.
    replace (find (fun u => (Users.email u =? Users.reg_email b)%string) db)
      with (@None Users.User).
    - cbn [find Users.email]. now rewrite String.eqb_refl.
    - symmetry. apply find_none_iff. intros u Hu.
      apply String.eqb_neq. now apply Hnew. }
  assert (Hauth : forall secret,
             Auth.authenticate verify secret
               (Some ("Bearer " ++ sign payload secret)%string)
             = Auth.Next payload).
  { intros secret. destruct (Hjwt secret) as (Hspace & Hne & Hverify).
    unfold Auth.authenticate.
    change ("Bearer " ++ sign payload secret)%string
      with ("Bearer" ++ String " " (sign payload secret))%string.
    rewrite (tokenOf_second_piece "Bearer" (sign payload secret)
                                  (sign payload secret) []);
      [ | reflexivity | now apply split_without_separator].
    destruct (sign payload secret) as [|c t] eqn:Htoken; [now elim Hne | ].
    now rewrite Hverify. }
  split; [exact Hrole | ].
  unfold ServerApp.login, OptimizedApp.login, Users.login,
    ServerApp.authenticateToken, OptimizedApp.authenticateToken.
  cbn [Users.cred_email Users.cred_password].
  rewrite !Hfind by reflexivity.
  cbn [Users.password Users.user_id Users.username Users.role Users.email].
  rewrite Hcompare.
  split; [reflexivity | split; [reflexivity | ]].
  split; [apply Hauth | split; [apply Hauth | ]].
  intros other Hother. now rewrite Hother.
Qed.

Lemma X19_witness :
  Users.register "$2a$10$hash" "U1" []
                 {| Users.reg_username := "omar";
                    Users.reg_email := "omar@example.org";
                    Users.reg_password := "s3cret";
                    Users.reg_role := None |}
    = ([{| Users.user_id := "U1"; Users.username := "omar";
           Users.email := "omar@example.org";
           Users.password := "$2a$10$hash"; Users.role := "teacher" |}],
       Http.Sent 201 "U1"%string) /\
  ServerApp.authenticateToken
    (fun token _ =>
       if (token =? "aaa.bbb.ccc")%string
       then Some {| Users.payload_userId := "U1";
                    Users.payload_username := "omar";
                    Users.payload_role := "teacher" |}
       else None)
    (Some "Bearer aaa.bbb.ccc"%string)
    = Auth.Next {| Users.payload_userId := "U1";
                   Users.payload_username := "omar";
                   Users.payload_role := "teacher" |}.
Proof.
  assert (Hreg : Users.register "$2a$10$hash" "U1" []
                   {| Users.reg_username := "omar";
                      Users.reg_email := "omar@example.org";
                      Users.reg_password := "s3cret";
                      Users.reg_role := None |}
                 = ([{| Users.user_id := "U1"; Users.username := "omar";
                        Users.email := "omar@example.org";
                        Users.password := "$2a$10$hash";
                        Users.role := "teacher" |}],
                    Http.Sent 201 "U1"%string)) by reflexivity.
  split; [exact Hreg | ].
  refine (proj1 (proj2 (proj2 (proj2
            (X19_a_registered_user_can_log_in
               (fun p h => (p =? "s3cret")%string && (h =? "$2a$10$hash")%string)
               (fun _ _ => "aaa.bbb.ccc"%string)
               (fun token _ =>
                  if (token =? "aaa.bbb.ccc")%string
                  then Some {| Users.payload_userId := "U1";
                               Users.payload_username := "omar";
                               Users.payload_role := "teacher" |}
                  else None)
               None "$2a$10$hash" "U1" [] _
               {| Users.reg_username := "omar";
                  Users.reg_email := "omar@example.org";
                  Users.reg_password := "s3cret";
                  Users.reg_role := None |}
               Hreg eq_refl _))))).
  intros secret. repeat split. discriminate.
Defined.

(** X20: registration stores the user it answers 201 for, and nothing
    else.  A request whose e-mail address and user name are new, whose
    required fields are not empty and whose role is allowed appends one user
    with the new id, the hash and the role of the request, teacher when the
    request has none; every other request leaves the collection as it was:
    400 "User already exists" exactly when a user already has the e-mail
    address or the user name, an error when the role is not admin, teacher
    or student.  User names and e-mail addresses stay unique. *)
Theorem X20_registration_keeps_users_unique
        (hashedPassword newId : string) (db : list Users.User)
        (b : Users.Registration) :
  NoDup (map Users.username db) ->
  NoDup (map Users.email db) ->
  NoDup (map Users.username
             (fst (Users.register hashedPassword newId db b))) /\
  NoDup (map Users.email (fst (Users.register hashedPassword newId db b))) /\
  (snd (Users.register hashedPassword newId db b) =
     Http.Refused 400 "User already exists" <->
   exists u, In u db /\ (Users.email u = Users.reg_email b \/
                         Users.username u = Users.reg_username b)) /\
  (forall u,
      In u (fst (Users.register hashedPassword newId db b)) ->
      In u db \/
      (Users.user_id u = newId /\
       Users.role u = Users.roleOr (Users.reg_role b) /\
       Users.allowedRole (Users.role u) = true)) /\
  (JSString.truthy (Users.reg_role b) = false ->
   Users.roleOr (Users.reg_role b) = "teacher"%string) /\
  ((forall u, In u db ->
              Users.email u <> Users.reg_email b /\
              Users.username u <> Users.reg_username b) ->
   Users.reg_username b <> EmptyString ->
   Users.reg_email b <> EmptyString ->
   hashedPassword <> EmptyString ->
   Users.allowedRole (Users.roleOr (Users.reg_role b)) = true ->
   Users.register hashedPassword newId db b =
     (db ++ [{| Users.user_id := newId;
                Users.username := Users.reg_username b;
                Users.email := Users.reg_email b;
                Users.password := hashedPassword;
                Users.role := Users.roleOr (Users.reg_role b) |}],
      Http.Sent 201 newId)) /\
  (snd (Users.register hashedPassword newId db b) <> Http.Sent 201 newId ->
   fst (Users.register hashedPassword newId db b) = db) /\
  (Users.allowedRole (Users.roleOr (Users.reg_role b)) = false ->
   fst (Users.register hashedPassword newId db b) = db /\
   snd (Users.register hashedPassword newId db b) <> Http.Sent 201 newId).
Proof.
  intros Hnames Hmails.
  assert (Hdefault : JSString.truthy (Users.reg_role b) = false ->
                     Users.roleOr (Users.reg_role b) = "teacher"%string).
  { destruct (Users.reg_role b) as [[|c s]|]; trivial; discriminate. }
  assert (Hstored :
            (forall u, In u db ->
                       Users.email u <> Users.reg_email b /\
                       Users.username u <> Users.reg_username b) ->
            Users.reg_username b <> EmptyString ->
            Users.reg_email b <> EmptyString ->
            hashedPassword <> EmptyString ->
            Users.allowedRole (Users.roleOr (Users.reg_role b)) = true ->
            Users.register hashedPassword newId db b =
              (db ++ [{| Users.user_id := newId;
                         Users.username := Users.reg_username b;
                         Users.email := Users.reg_email b;
                         Users.password := hashedPassword;
                         Users.role := Users.roleOr (Users.reg_role b) |}],
               Http.Sent 201 newId)).
  { intros Hnew Hname Hmail Hhash Hrole. unfold Users.register.
    replace (find _ db) with (@None Users.User).
    - cbn [Users.username Users.email Users.password Users.role].
      rewrite Hrole.
      destruct (Users.reg_username b); [now elim Hname | ].
      destruct (Users.reg_email b); [now elim Hmail | ].
      destruct hashedPassword; [now elim Hhash | ].
      reflexivity.
    - symmetry. apply find_none_iff. intros u Hu.
      destruct (Hnew u Hu) as [H1 H2].
      apply String.eqb_neq in H1, H2. now rewrite H1, H2. }
  destruct (register_cases hashedPassword newId db b)
    as [(u & Hu & Hsame & Heq) | (Hnew & [(Hrole & Heq) | Heq])];
    rewrite Heq in *; cbn [fst snd];
    (split; [ | split; [ | split; [ | split; [ | split;
                                                 [ | split; [ | split]]]]]]);
    trivial.
  - split; eauto.
  - auto.
  - intros _. split; [trivial | discriminate].
  - rewrite map_app. cbn [map Users.username].
    apply NoDup_snoc; trivial. intros Hin.
    apply in_map_iff in Hin as (u & Hequ & Hu). now destruct (Hnew u Hu).
  - rewrite map_app. cbn [map Users.email].
    apply NoDup_snoc; trivial. intros Hin.
    apply in_map_iff in Hin as (u & Hequ & Hu). now destruct (Hnew u Hu).
  - split; [discriminate | ].
    intros (u & Hu & [H | H]); now destruct (Hnew u Hu).
  - intros u [Hu | [<- | []]]%in_app_or; [now left | right].
    cbn [Users.user_id Users.role]. auto.
  - intros H. now elim H.
  - cbn [Users.role] in Hrole. congruence.
  - split; [discriminate | ].
    intros (u & Hu & [H | H]); now destruct (Hnew u Hu).
  - auto.
  - intros _. split; [trivial | discriminate].
Qed.

(** X20 on a collection of one user: a second user who names no role is
    stored as a teacher behind the first, and a request with the e-mail
    address of the first is answered 400. *)
Lemma X20_witness :
  NoDup (map Users.username [omar]) /\
  NoDup (map Users.email [omar]) /\
  Users.register "$2a$10$hash2" "U2" [omar]
                 {| Users.reg_username := "lena";
                    Users.reg_email := "lena@example.org";
                    Users.reg_password := "pa55word";
                    Users.reg_role := None |}
    = ([omar;
        {| Users.user_id := "U2"; Users.username := "lena";
           Users.email := "lena@example.org";
           Users.password := "$2a$10$hash2"; Users.role := "teacher" |}],
       Http.Sent 201 "U2"%string) /\
  NoDup (map Users.username
             (fst (Users.register "$2a$10$hash2" "U2" [omar]
                     {| Users.reg_username := "lena";
                        Users.reg_email := "lena@example.org";
                        Users.reg_password := "pa55word";
                        Users.reg_role := None |}))) /\
  snd (Users.register "$2a$10$hash3" "U3" [omar]
         {| Users.reg_username := "omar2";
            Users.reg_email := "omar@example.org";
            Users.reg_password := "s3cret";
            Users.reg_role := Some "admin"%string |})
    = Http.Refused 400 "User already exists".
Proof.
  assert (Hnames : NoDup (map Users.username [omar]))
    by (repeat constructor; intros []).
  assert (Hmails : NoDup (map Users.email [omar]))
    by (repeat constructor; intros []).
  split; [exact Hnames | split; [exact Hmails | ]].
  pose proof (X20_registration_keeps_users_unique
                "$2a$10$hash2" "U2" [omar]
                {| Users.reg_username := "lena";
                   Users.reg_email := "lena@example.org";
                   Users.reg_password := "pa55word";
                   Users.reg_role := None |}
                Hnames Hmails)
    as (Hunique & _ & _ & _ & _ & Hstored & _).
  split; [ | split; [exact Hunique | ]].
  - apply Hstored; try discriminate; try reflexivity.
    intros u [<- | []]. split; discriminate.
  - apply (proj1 (proj2 (proj2 (X20_registration_keeps_users_unique
                                  "$2a$10$hash3" "U3" [omar]
                                  {| Users.reg_username := "omar2";
                                     Users.reg_email := "omar@example.org";
                                     Users.reg_password := "s3cret";
                                     Users.reg_role := Some "admin"%string |}
                                  Hnames Hmails)))).
    exists omar. split; [now left | now left].
Defined.
